(** * ltc_timecode_pi: timecode clock and NTP slew engine

    A shallow embedding of the parts of ltc_timecode_pi that derive the
    SMPTE frame number from the adjusted clock (ltc_timecode.c:
    [get_timecode_with_alsa_latency], [get_display_timecode]) and that
    measure and slew the NTP offset (ltc_ntp.c: [query_ntp_server],
    [ntp_sync_thread]).

    C integers are integers of [Z] with the 64-bit (or 32-bit) wrap-around
    written where the C code adds, subtracts or casts; [/] and [%] of C are
    [Z.quot] and [Z.rem].  The three doubles the code computes with
    integers ([ntp_slew_period * selected_fps], [fps * 1000]) are modelled
    exactly, as dyadic rationals rounded to 53 bits. *)

From Stdlib Require Import Ascii String ZArith List Bool Lia.
Import ListNotations.
Local Open Scope Z_scope.

(** ** Machine integers *)

Module Int.

Definition INT64_MAX : Z := 2 ^ 63 - 1.
Definition INT64_MIN : Z := - 2 ^ 63.

(** Two's-complement reduction to [w] bits. *)
Definition wrap (w : Z) (x : Z) : Z := (x + 2 ^ (w - 1)) mod 2 ^ w - 2 ^ (w - 1).

Definition wrap64 : Z -> Z := wrap 64.
(** The cast [(int)] of a 64-bit value. *)
Definition to_int : Z -> Z := wrap 32.

(** [labs] of the C library, with [long] 64 bits wide.  Its value at
    [INT64_MIN] is undefined in C; no offset computed by
    [perform_single_ntp_query] is that small. *)
Definition labs (x : Z) : Z := Z.abs x.

End Int.
Export Int.

(** ** Doubles, as far as the code needs them

    A finite double is the dyadic rational [dnum / 2 ^ dexp], [0 <= dexp].
    The values the code handles lie between 1 and 2^40, far from overflow
    and from the subnormal range, so rounding is to 53 significant bits,
    ties to even. *)

Module Double.

Record double : Set := mkDouble { dnum : Z; dexp : Z }.

Definition of_int (n : Z) : double := mkDouble n 0.

(** The nearest double to [N / 2 ^ sh]. *)
Definition round_b64 (N sh : Z) : double :=
  let a := Z.abs N in
  let L := Z.log2 a in
  if L <=? 52 then mkDouble N sh
  else
    let s := L - 52 in
    let q := Z.shiftr a s in
    let r := a mod 2 ^ s in
    let half := 2 ^ (s - 1) in
    let q' := if (half <? r) || ((r =? half) && Z.odd q) then q + 1 else q in
    mkDouble (Z.sgn N * (q' * 2 ^ s)) sh.

Definition mul (a b : double) : double :=
  round_b64 (dnum a * dnum b) (dexp a + dexp b).

(** [a == b] on doubles: equality of the values. *)
Definition eqb (a b : double) : bool :=
  dnum a * 2 ^ dexp b =? dnum b * 2 ^ dexp a.

(** The cast [(int64_t)] of a double: truncation toward zero. *)
Definition to_int64 (a : double) : Z := wrap64 (Z.quot (dnum a) (2 ^ dexp a)).

(** [round] of math.h: to the nearest integer, halves away from zero. *)
Definition round (a : double) : Z :=
  Z.sgn (dnum a) * ((2 * Z.abs (dnum a) + 2 ^ dexp a) / 2 ^ (dexp a + 1)).

(** The literals of the sources. *)
Definition d24 : double := of_int 24.
Definition d25 : double := of_int 25.
Definition d30 : double := of_int 30.
(** 29.97 is 0x1.df851eb851eb8p+4. *)
Definition d29_97 : double := mkDouble 1054475631502295 45.
(** 23.976 is 0x1.7f9db22d0e560p+4. *)
Definition d23_976 : double := mkDouble 210895126300459 43.
Definition d1000 : double := of_int 1000.

End Double.

(** ** ltc_common.h, ltc_ntp.h *)

Definition SAMPLE_RATE : Z := 48000.
Definition MICROSECONDS_PER_SECOND : Z := 1000000.
Definition NANOSECONDS_PER_MICROSECOND : Z := 1000.

Definition NTP_QUERY_COUNT : nat := 5.
Definition NTP_ERROR_THRESHOLD : Z := 10 * MICROSECONDS_PER_SECOND.

Definition LTC_TV_525_60 : Z := 0.
Definition LTC_TV_625_50 : Z := 1.

Record framerate_spec_t : Set := mkRate {
  fps : Double.double;
  std : Z;
  drop_frame : bool;
  name : string
}.

Definition supported_rates : list framerate_spec_t :=
  [ mkRate Double.d24    LTC_TV_525_60 false "24";
    mkRate Double.d25    LTC_TV_625_50 false "25";
    mkRate Double.d29_97 LTC_TV_525_60 false "29.97";
    mkRate Double.d30    LTC_TV_525_60 false "30";
    mkRate Double.d29_97 LTC_TV_525_60 true  "29.97df";
    mkRate Double.d30    LTC_TV_525_60 true  "30df" ].

(** ** The shared NTP state (the globals guarded by [ntp_lock]) *)

Record ntp_state : Set := mkNtp {
  ntp_offset_us : Z;
  ntp_target_offset_us : Z;
  ntp_adjustment_step_us : Z
}.

(** The globals as the program starts. *)
Definition ntp_init : ntp_state := mkNtp 0 0 0.

(** The configuration globals [query_ntp_server] reads. *)
Record ntp_config : Set := mkCfg {
  ntp_slew_period : Z;
  selected_fps : Double.double
}.

(** ** ltc_timecode.c: the per-frame slew

    The block of [get_timecode_with_alsa_latency] run under [ntp_lock]
    once per audio frame. *)
Definition slew_step (s : ntp_state) : ntp_state :=
  let off := ntp_offset_us s in
  let tgt := ntp_target_offset_us s in
  let stp := ntp_adjustment_step_us s in
  if negb (off =? tgt) && negb (stp =? 0) then
    let off' := wrap64 (off + stp) in
    if ((0 <? stp) && (tgt <=? off')) || ((stp <? 0) && (off' <=? tgt))
    then mkNtp tgt tgt 0
    else mkNtp off' tgt stp
  else s.

(** ** ltc_ntp.c: query_ntp_server *)

(** What the network gives one call: whether the socket could be made and
    configured and the host resolved, and the value each of the calls of
    [perform_single_ntp_query] returns ([INT64_MAX] for a failed one; a
    reply missing from the list is a failed query). *)
Record ntp_net : Set := mkNet {
  socket_ok : bool;
  sockopt_ok : bool;
  resolve_ok : bool;
  replies : list Z
}.

Definition perform_single_ntp_query (net : ntp_net) (i : nat) : Z :=
  nth i (replies net) INT64_MAX.

Record query_acc : Set := mkAcc {
  offsets : list Z;
  successful_queries : Z;
  sum_offset : Z
}.

(** One turn of the query loop. *)
Definition query_loop_body (net : ntp_net) (acc : query_acc) (i : nat) : query_acc :=
  let offset := perform_single_ntp_query net i in
  if negb (offset =? INT64_MAX) && (labs offset <? NTP_ERROR_THRESHOLD)
  then mkAcc (offsets acc ++ [offset])
             (successful_queries acc + 1)
             (wrap64 (sum_offset acc + offset))
  else mkAcc (offsets acc ++ [INT64_MAX]) (successful_queries acc) (sum_offset acc).

Definition query_loop (net : ntp_net) : query_acc :=
  fold_left (query_loop_body net) (seq 0 NTP_QUERY_COUNT) (mkAcc [] 0 0).

(** One turn of the loop that looks for the minimum absolute offset. *)
Definition min_loop_body (min_offset : Z) (o : Z) : Z :=
  if negb (o =? INT64_MAX) && (labs o <? labs min_offset) then o else min_offset.

Definition select_offset (acc : query_acc) : Z :=
  if 0 <? successful_queries acc then
    fold_left min_loop_body (offsets acc)
              (Z.quot (sum_offset acc) (successful_queries acc))
  else 0.

(** [(int64_t)(ntp_slew_period * selected_fps)]. *)
Definition adjust_frames (cfg : ntp_config) : Z :=
  Double.to_int64 (Double.mul (Double.of_int (ntp_slew_period cfg)) (selected_fps cfg)).

(** The update under [ntp_lock], once [min_offset] has passed the second
    threshold test. *)
Definition publish_target (cfg : ntp_config) (min_offset : Z) (s : ntp_state) : ntp_state :=
  let tgt := min_offset in
  let diff := wrap64 (tgt - ntp_offset_us s) in
  if 0 <? adjust_frames cfg then
    let step := Z.quot diff (adjust_frames cfg) in
    let step :=
      if negb (diff =? 0) && (step =? 0)
      then (if 0 <? diff then 1 else -1)
      else step in
    mkNtp (ntp_offset_us s) tgt step
  else mkNtp (ntp_offset_us s) tgt (ntp_adjustment_step_us s).

(** The return value and the shared state after the call. *)
Definition query_ntp_server (cfg : ntp_config) (net : ntp_net) (s : ntp_state)
  : Z * ntp_state :=
  if negb (socket_ok net) then (-1, s)
  else if negb (sockopt_ok net) then (-1, s)
  else if negb (resolve_ok net) then (-1, s)
  else
    let acc := query_loop net in
    let min_offset := select_offset acc in
    if successful_queries acc =? 0 then (-1, s)
    else if labs min_offset <? NTP_ERROR_THRESHOLD
         then (0, publish_target cfg min_offset s)
         else (-1, s).

(** ** ltc_timecode.c: the timecode clock *)

Record timespec : Set := mkTimespec { tv_sec : Z; tv_nsec : Z }.

Record tm : Set := mkTm {
  tm_year : Z; tm_mon : Z; tm_mday : Z;
  tm_hour : Z; tm_min : Z; tm_sec : Z
}.

(** [SMPTETimecode] is declared by libltc (ltc.h), where every field
    below is an [unsigned char]; a store into one reduces modulo 256. *)
Record SMPTETimecode : Set := mkTc {
  years : Z; months : Z; days : Z;
  hours : Z; mins : Z; secs : Z;
  frame : Z
}.

Definition to_uchar (x : Z) : Z := x mod 256.

(** What ALSA answers about the queue: [snd_pcm_status] and the delay it
    reports, and [snd_pcm_delay] for the fallback. *)
Record pcm_answer : Set := mkPcm {
  status_ok : bool;
  status_delay : Z;
  delay_ok : bool;
  delay_value : Z
}.

(** The queued delay in frames, never negative. *)
Definition query_delay_frames (pcm : pcm_answer) : Z :=
  if status_ok pcm then
    let delay_frames := status_delay pcm in
    if delay_frames <? 0 then 0 else delay_frames
  else
    let delay_frames := if delay_ok pcm then delay_value pcm else 0 in
    if delay_frames <? 0 then 0 else delay_frames.

(** [frame_numerator] and [frame_denominator]. *)
Definition frame_rational (fps : Double.double) : Z * Z :=
  if Double.eqb fps Double.d29_97 then (30000, 1001)
  else if Double.eqb fps Double.d23_976 then (24000, 1001)
  else (Double.to_int64 (Double.mul fps Double.d1000), 1000).

(** The frame that [adj_frac_us] falls into, before the two corrections. *)
Definition derived_frame (fps : Double.double) (adj_frac_us : Z) : Z :=
  let '(frame_numerator, frame_denominator) := frame_rational fps in
  let us_per_frame :=
    Z.quot (wrap64 (MICROSECONDS_PER_SECOND * frame_denominator)) frame_numerator in
  to_int (Z.quot adj_frac_us us_per_frame).

(** [if (frame >= (int)(num / den)) frame = (int)(num / den) - 1;] *)
Definition clamp_frame (fps : Double.double) (frame : Z) : Z :=
  let '(frame_numerator, frame_denominator) := frame_rational fps in
  let bound := to_int (Z.quot frame_numerator frame_denominator) in
  if bound <=? frame then to_int (bound - 1) else frame.

(** The drop-frame block, on the minute stored in the timecode. *)
Definition drop_frame_rule (drop_frame : bool) (tc_mins : Z) (frame : Z) : Z :=
  if drop_frame then
    let d := 2 in
    if negb (Z.rem tc_mins 10 =? 0) && (frame <? d) then d else frame
  else frame.

(** [time_us], with the NTP offset when synchronization is on. *)
Definition clock_us (ts : timespec) : Z :=
  wrap64 (wrap64 (tv_sec ts * MICROSECONDS_PER_SECOND)
          + Z.quot (tv_nsec ts) NANOSECONDS_PER_MICROSECOND).

Definition buffer_delay_us (pcm : pcm_answer) : Z :=
  Z.quot (wrap64 (wrap64 (query_delay_frames pcm * MICROSECONDS_PER_SECOND)
                  + Z.quot SAMPLE_RATE 2))
         SAMPLE_RATE.

(** [adj_time_us] of [get_timecode_with_alsa_latency].  The adaptive
    correction [processing_offset_us] comes out of [exp] and [sin] on
    doubles; it is taken as it comes, whatever its value. *)
Definition adjusted_time_us (ts : timespec) (use_ntp : bool) (s : ntp_state)
    (pcm : pcm_answer) (processing_offset_us : Z) : Z :=
  let time_us := clock_us ts in
  let time_us := if use_ntp then wrap64 (time_us + ntp_offset_us s) else time_us in
  wrap64 (wrap64 (time_us + buffer_delay_us pcm) + processing_offset_us).

Section TimecodeClock.

(** [localtime] of the C library, for the time zone the process runs in. *)
Variable localtime : Z -> tm.

(** The part the two functions share, line for line: calendar fields from
    the whole seconds ([time_t] is 64 bits wide), frame from the
    microseconds left. *)
Definition timecode_at (fps : Double.double) (drop_frame : bool) (time_us : Z)
  : SMPTETimecode :=
  let adj_whole := Z.quot time_us MICROSECONDS_PER_SECOND in
  let adj_frac_us := Z.rem time_us MICROSECONDS_PER_SECOND in
  let t := localtime adj_whole in
  let tc_mins := to_uchar (tm_min t) in
  let frame := derived_frame fps adj_frac_us in
  let frame := clamp_frame fps frame in
  let frame := drop_frame_rule drop_frame tc_mins frame in
  mkTc (to_uchar (tm_year t + 1900)) (to_uchar (tm_mon t + 1)) (to_uchar (tm_mday t))
       (to_uchar (tm_hour t)) tc_mins (to_uchar (tm_sec t))
       (to_uchar frame).

(** The timecode handed to the encoder, and the NTP state after the
    frame's slew. *)
Definition get_timecode_with_alsa_latency (fps : Double.double) (drop_frame : bool)
    (ts : timespec) (use_ntp : bool) (s : ntp_state) (pcm : pcm_answer)
    (processing_offset_us : Z) : SMPTETimecode * ntp_state :=
  (timecode_at fps drop_frame (adjusted_time_us ts use_ntp s pcm processing_offset_us),
   if use_ntp then slew_step s else s).

Definition get_display_timecode (fps : Double.double) (drop_frame : bool)
    (ts : timespec) (ntp_offset : Z) : SMPTETimecode :=
  timecode_at fps drop_frame (wrap64 (clock_us ts + ntp_offset)).

End TimecodeClock.

(** The frame before the drop-frame block: derived, then clamped. *)
Definition clamped_frame (fps : Double.double) (time_us : Z) : Z :=
  clamp_frame fps (derived_frame fps (Z.rem time_us MICROSECONDS_PER_SECOND)).

(** ** ltc_ntp.c: ntp_sync_thread

    What the thread does, as the sequence of its reads of [running], its
    calls of [sleep] (with the argument, in seconds) and its calls of
    [query_ntp_server].  [running k] is the value the [k]-th read of the
    flag finds. *)
Inductive sync_event : Set :=
  | Ev_check (observed : bool)
  | Ev_sleep (seconds : Z)
  | Ev_query.

(** [for (i = 0; i < ntp_sync_interval && running; i++) sleep(1);] with
    [left] turns to go; [reads] counts the reads of the flag so far. *)
Fixpoint sync_wait (running : nat -> bool) (reads : nat) (left : nat)
  : list sync_event :=
  match left with
  | O => []
  | S left' =>
      Ev_check (running reads) ::
      (if running reads
       then Ev_sleep 1 :: sync_wait running (S reads) left'
       else [])
  end.

(** One turn of [while (running)]: the test, the wait, the query. *)
Definition sync_cycle (ntp_sync_interval : Z) (running : nat -> bool) (reads : nat)
  : list sync_event :=
  Ev_check (running reads) ::
  (if running reads
   then sync_wait running (S reads) (Z.to_nat ntp_sync_interval) ++ [Ev_query]
   else []).

(** The length of a sleep in microseconds. *)
Definition sleep_us (seconds : Z) : Z := seconds * MICROSECONDS_PER_SECOND.

(** The number of leading reads, from [reads] on and at most [left], that
    find the flag set. *)
Fixpoint reads_set (running : nat -> bool) (reads : nat) (left : nat) : nat :=
  match left with
  | O => O
  | S left' => if running reads then S (reads_set running (S reads) left') else O
  end.

(** ** The two writers of the NTP state, interleaved

    The audio thread runs [slew_step] once per frame and the sync thread
    runs [query_ntp_server] once per cycle; [ntp_lock] makes each of them
    atomic, so a run of the program is a sequence of the two. *)
Inductive ntp_event : Set :=
  | Ev_frame
  | Ev_sync (net : ntp_net).

Definition ntp_apply (cfg : ntp_config) (s : ntp_state) (e : ntp_event) : ntp_state :=
  match e with
  | Ev_frame => slew_step s
  | Ev_sync net => snd (query_ntp_server cfg net s)
  end.

Definition ntp_run (cfg : ntp_config) (evs : list ntp_event) : ntp_state :=
  fold_left (ntp_apply cfg) evs ntp_init.

(** The configurations main can set up: a slew period that passed the
    [< 1] test of the option parser, and the rate of a supported spec. *)
Definition valid_config (cfg : ntp_config) : Prop :=
  1 <= ntp_slew_period cfg <= 2147483647 /\
  In (selected_fps cfg) (map fps supported_rates).

(** The distance left to slew. *)
Definition slew_distance (s : ntp_state) : Z :=
  Z.abs (ntp_offset_us s - ntp_target_offset_us s).


(** The values the calls of [perform_single_ntp_query] return in a cycle. *)
Definition samples (net : ntp_net) : list Z :=
  map (perform_single_ntp_query net) (seq 0 NTP_QUERY_COUNT).

(** The test a sample passes to be counted: not the error value, and
    less than ten seconds in magnitude. *)
Definition plausible (o : Z) : bool :=
  negb (o =? INT64_MAX) && (labs o <? NTP_ERROR_THRESHOLD).

(** The samples of a cycle that pass. *)
Definition survivors (net : ntp_net) : list Z := filter plausible (samples net).

(** What the query loop stores in [offsets] for a sample. *)
Definition stored (o : Z) : Z := if plausible o then o else INT64_MAX.

Definition zsum (l : list Z) : Z := fold_right Z.add 0 l.

(** What every run keeps true of the shared state: offset and target are
    within the threshold, the step is bounded, and a step is pending as
    long as the offset has not reached the target. *)
Definition ntp_inv (s : ntp_state) : Prop :=
  Z.abs (ntp_offset_us s) < NTP_ERROR_THRESHOLD /\
  Z.abs (ntp_target_offset_us s) < NTP_ERROR_THRESHOLD /\
  Z.abs (ntp_adjustment_step_us s) < 2 * NTP_ERROR_THRESHOLD /\
  (ntp_offset_us s <> ntp_target_offset_us s -> ntp_adjustment_step_us s <> 0).

(** [d < ntp_slew_period * selected_fps], the product taken exactly. *)
Definition below_slew_frames (cfg : ntp_config) (d : Z) : Prop :=
  d * 2 ^ Double.dexp (selected_fps cfg)
  < ntp_slew_period cfg * Double.dnum (selected_fps cfg).

(** The step [publish_target] stores for a difference [diff] and a frame
    count [A]. *)
Definition slew_step_for (diff A : Z) : Z :=
  let step := Z.quot diff A in
  if negb (diff =? 0) && (step =? 0) then (if 0 <? diff then 1 else -1) else step.

(** ** ltc_ntp.c: timestamps and the single query *)

Definition NTP_TIMESTAMP_DELTA : Z := 2208988800.

(** The casts [(uint32_t)] and [(uint64_t)]. *)
Definition to_uint32 (x : Z) : Z := x mod 2 ^ 32.
Definition to_uint64 (x : Z) : Z := x mod 2 ^ 64.

(** [ntp_sec] and [ntp_frac] are [uint32_t]. *)
Definition ntp_to_unix_us (ntp_sec ntp_frac : Z) : Z :=
  let unix_sec := wrap64 (ntp_sec - NTP_TIMESTAMP_DELTA) in
  let us := Z.shiftr (wrap64 (ntp_frac * MICROSECONDS_PER_SECOND)) 32 in
  wrap64 (wrap64 (unix_sec * MICROSECONDS_PER_SECOND) + us).

(** [*sec] and [*frac] for the clock reading [ts]. *)
Definition get_system_time_ntp (ts : timespec) : Z * Z :=
  (to_uint32 (wrap64 (tv_sec ts + NTP_TIMESTAMP_DELTA)),
   to_uint32 (to_uint64 (Z.shiftl (to_uint64 (tv_nsec ts)) 32) / 1000000000)).

(** What the network does to one query: [sendto] fails, [recvfrom] fails
    (the 5 s timeout included), or a reply arrives, with its transmit
    timestamp (after [ntohl]) and the clock reading taken on receipt. *)
Inductive query_outcome : Set :=
  | Send_failed
  | Recv_failed
  | Reply (tx_ts_sec tx_ts_frac : Z) (client_recv_ts : timespec).

(** The value [perform_single_ntp_query] returns. *)
Definition query_result (o : query_outcome) : Z :=
  match o with
  | Send_failed => INT64_MAX
  | Recv_failed => INT64_MAX
  | Reply tx_ts_sec tx_ts_frac client_recv_ts =>
      let server_tx_us := ntp_to_unix_us tx_ts_sec tx_ts_frac in
      let client_recv_us :=
        wrap64 (wrap64 (tv_sec client_recv_ts * MICROSECONDS_PER_SECOND)
                + Z.quot (tv_nsec client_recv_ts) NANOSECONDS_PER_MICROSECOND) in
      wrap64 (server_tx_us - client_recv_us)
  end.

(** ** ltc_timecode.c: frame length and frame count of a rate *)

(** [us_per_frame] of the two timecode functions. *)
Definition us_per_frame (fps : Double.double) : Z :=
  let '(frame_numerator, frame_denominator) := frame_rational fps in
  Z.quot (wrap64 (MICROSECONDS_PER_SECOND * frame_denominator)) frame_numerator.

(** [(int)(frame_numerator / frame_denominator)], the clamp bound. *)
Definition frame_count (fps : Double.double) : Z :=
  let '(frame_numerator, frame_denominator) := frame_rational fps in
  to_int (Z.quot frame_numerator frame_denominator).

(** ** ltc_timecode.c: parse_rate, and the choice of the rate in main *)

(** The first supported rate whose name is [arg]; [None] is [NULL]. *)
Definition parse_rate (arg : string) : option framerate_spec_t :=
  find (fun r => String.eqb arg (name r)) supported_rates.

(** [&supported_rates[1]], the default of main. *)
Definition default_rate : framerate_spec_t :=
  nth 1 supported_rates (mkRate Double.d25 LTC_TV_625_50 false "25").

(** The rate main runs with: [positional] is [argv[optind]] when there is
    one, [config_framerate] the global the config file may have set.
    [None] is the exit with the usage message. *)
Definition select_rate (positional : option string) (config_framerate : string)
  : option framerate_spec_t :=
  match positional with
  | Some arg => parse_rate arg
  | None =>
      if (0 <? String.length config_framerate)%nat then
        match parse_rate config_framerate with
        | Some cfg_rate => Some cfg_rate
        | None => Some default_rate
        end
      else Some default_rate
  end.

(** ** The slew between two syncs *)

(** The step points from the offset to the target, and is zero at it. *)
Definition ntp_aimed (s : ntp_state) : Prop :=
  Z.sgn (ntp_adjustment_step_us s)
  = Z.sgn (ntp_target_offset_us s - ntp_offset_us s).

(** Where [k] frames of slew, with no sync in between, take the state
    [s]: [k] steps further, or at the target with the step zeroed once
    [k] steps reach or pass it. *)
Definition slew_after (s : ntp_state) (k : Z) : ntp_state :=
  if Z.abs (ntp_adjustment_step_us s) * k
     <? Z.abs (ntp_target_offset_us s - ntp_offset_us s)
  then mkNtp (ntp_offset_us s + k * ntp_adjustment_step_us s)
             (ntp_target_offset_us s) (ntp_adjustment_step_us s)
  else mkNtp (ntp_target_offset_us s) (ntp_target_offset_us s) 0.

(** ** Measures of a trace of the sync thread *)



(** ** ltc_config.c: parse_config

    C strings are strings without a NUL character; the file is the list
    of the pieces [fgets] returns, each a line with its line end or a
    piece of 255 characters of a longer line. *)

Module Config.

(** The globals the config file can set. *)
Record settings : Set := mkSettings {
  config_device : string;
  config_framerate : string;
  ntp_server : string;
  use_ntp : bool;
  ntp_sync_interval : Z;
  ntp_slew_period : Z
}.

(** The globals as the program starts. *)
Definition defaults : settings := mkSettings "" "" "" false 60 30.

(** [strchr(line, '=')], then [*eq = 0]: the text before the first ['=']
    and the text after it. *)
Fixpoint split_eq (line : string) : option (string * string) :=
  match line with
  | EmptyString => None
  | String c rest =>
      if Ascii.eqb c "="%char then Some (EmptyString, rest)
      else match split_eq rest with
           | Some (key, val) => Some (String c key, val)
           | None => None
           end
  end.

(** [val[strcspn(val, "\r\n")] = 0]: cut at the first CR or LF. *)
Fixpoint cut_line_end (val : string) : string :=
  match val with
  | EmptyString => EmptyString
  | String c rest =>
      if Ascii.eqb c "013"%char || Ascii.eqb c "010"%char then EmptyString
      else String c (cut_line_end rest)
  end.

(** [strncpy(dst, src, n)] into a buffer whose byte [n] stays 0: the
    first [n] characters of [src]. *)
Fixpoint strncpy (n : nat) (src : string) : string :=
  match n, src with
  | S n', String c rest => String c (strncpy n' rest)
  | _, _ => EmptyString
  end.

Definition isspace (c : ascii) : bool :=
  let n := nat_of_ascii c in
  Nat.eqb n 32 || (Nat.leb 9 n && Nat.leb n 13).

Definition isdigit (c : ascii) : bool :=
  let n := nat_of_ascii c in
  Nat.leb 48 n && Nat.leb n 57.

Fixpoint skip_spaces (s : string) : string :=
  match s with
  | String c rest => if isspace c then skip_spaces rest else s
  | EmptyString => s
  end.

(** The value of the leading digits of [s], continuing [acc]. *)
Fixpoint digits_value (acc : Z) (s : string) : Z :=
  match s with
  | String c rest =>
      if isdigit c
      then digits_value (acc * 10 + (Z.of_nat (nat_of_ascii c) - 48)) rest
      else acc
  | EmptyString => acc
  end.

(** [strtol(s, NULL, 10)] with a 64-bit [long]: white space, a sign, the
    digits; a value out of range is [LONG_MAX] or [LONG_MIN]. *)
Definition strtol (s : string) : Z :=
  match skip_spaces s with
  | String "-"%char rest => Z.max INT64_MIN (- digits_value 0 rest)
  | String "+"%char rest => Z.min INT64_MAX (digits_value 0 rest)
  | s' => Z.min INT64_MAX (digits_value 0 s')
  end.

(** [atoi] as the C library defines it: [(int) strtol(s, NULL, 10)]. *)
Definition atoi (s : string) : Z := to_int (strtol s).

(** The body of the [fgets] loop for one piece. *)
Definition parse_config_line (c : settings) (line : string) : settings :=
  match split_eq line with
  | None => c
  | Some (key, val) =>
      let val := cut_line_end val in
      if String.eqb key "device" then
        mkSettings (strncpy 127 val) (config_framerate c) (ntp_server c) (use_ntp c)
                   (ntp_sync_interval c) (ntp_slew_period c)
      else if String.eqb key "framerate" then
        mkSettings (config_device c) (strncpy 31 val) (ntp_server c) (use_ntp c)
                   (ntp_sync_interval c) (ntp_slew_period c)
      else if String.eqb key "ntp-server" then
        mkSettings (config_device c) (config_framerate c) (strncpy 255 val) true
                   (ntp_sync_interval c) (ntp_slew_period c)
      else if String.eqb key "ntp-sync-interval" then
        let v := atoi val in
        mkSettings (config_device c) (config_framerate c) (ntp_server c) (use_ntp c)
                   (if v <? 1 then 60 else v) (ntp_slew_period c)
      else if String.eqb key "ntp-slew-period" then
        let v := atoi val in
        mkSettings (config_device c) (config_framerate c) (ntp_server c) (use_ntp c)
                   (ntp_sync_interval c) (if v <? 1 then 30 else v)
      else c
  end.

(** [file] is [None] when [fopen] fails. *)
Definition parse_config (file : option (list string)) (c : settings) : settings :=
  match file with
  | None => c
  | Some pieces => fold_left parse_config_line pieces c
  end.

(** The settings the rest of the program relies on: the strings fit
    their buffers and the two periods are positive [int] values. *)
Definition well_formed (c : settings) : Prop :=
  (String.length (config_device c) <= 127)%nat /\
  (String.length (config_framerate c) <= 31)%nat /\
  (String.length (ntp_server c) <= 255)%nat /\
  1 <= ntp_sync_interval c <= 2147483647 /\
  1 <= ntp_slew_period c <= 2147483647.

(** The five keys [parse_config] knows. *)
Definition known_keys : list string :=
  ["device"; "framerate"; "ntp-server"; "ntp-sync-interval"; "ntp-slew-period"]%string.

(** The decimal digits of [n], most significant first, in front of
    [acc]; [fuel] bounds their number. *)
Fixpoint to_digits (fuel : nat) (n : Z) (acc : string) : string :=
  match fuel with
  | O => acc
  | S fuel' =>
      let acc' := String (ascii_of_nat (48 + Z.to_nat (n mod 10))) acc in
      if n / 10 =? 0 then acc' else to_digits fuel' (n / 10) acc'
  end.

(** The decimal numeral of [n], for [0 <= n < 10 ^ 19]. *)
Definition decimal (n : Z) : string := to_digits 19 n "".

End Config.

(** * Properties *)

(** ** Machine integers *)

Lemma wrap64_small (x : Z) : INT64_MIN <= x <= INT64_MAX -> wrap64 x = x.
Proof.
  unfold wrap64, wrap, INT64_MIN, INT64_MAX. intros H.
  change (2 ^ (64 - 1)) with 9223372036854775808.
  change (2 ^ 64) with 18446744073709551616.
  change (2 ^ 63) with 9223372036854775808 in H.
  rewrite Z.mod_small; lia.
Qed.

Lemma wrap64_range (x : Z) : INT64_MIN <= wrap64 x <= INT64_MAX.
Proof.
  unfold wrap64, wrap, INT64_MIN, INT64_MAX.
  change (2 ^ (64 - 1)) with 9223372036854775808.
  change (2 ^ 64) with 18446744073709551616.
  change (2 ^ 63) with 9223372036854775808.
  pose proof (Z.mod_pos_bound (x + 9223372036854775808) 18446744073709551616).
  lia.
Qed.

Lemma to_int_small (x : Z) : - 2147483648 <= x <= 2147483647 -> to_int x = x.
Proof.
  unfold to_int, wrap. intros H.
  change (2 ^ (32 - 1)) with 2147483648.
  change (2 ^ 32) with 4294967296.
  rewrite Z.mod_small; lia.
Qed.

Lemma threshold_value : NTP_ERROR_THRESHOLD = 10000000.
Proof. reflexivity. Qed.

Lemma plausible_spec (o : Z) :
  plausible o = true <-> o <> INT64_MAX /\ Z.abs o < NTP_ERROR_THRESHOLD.
Proof.
  unfold plausible, labs.
  rewrite andb_true_iff, negb_true_iff, Z.eqb_neq, Z.ltb_lt. tauto.
Qed.

(** ** The query loop of query_ntp_server *)

Section QueryLoop.

Variable net : ntp_net.

Lemma query_loop_body_eq (acc : query_acc) (i : nat) :
  query_loop_body net acc i =
  if plausible (perform_single_ntp_query net i)
  then mkAcc (offsets acc ++ [perform_single_ntp_query net i]) (successful_queries acc + 1)
             (wrap64 (sum_offset acc + perform_single_ntp_query net i))
  else mkAcc (offsets acc ++ [INT64_MAX]) (successful_queries acc) (sum_offset acc).
Proof. reflexivity. Qed.

Lemma fold_offsets (l : list nat) (acc : query_acc) :
  offsets (fold_left (query_loop_body net) l acc) = offsets acc ++ map stored (map (perform_single_ntp_query net) l).
Proof.
  revert acc. induction l as [|i l IH]; intros acc; simpl.
  - now rewrite app_nil_r.
  - rewrite IH, query_loop_body_eq. unfold stored at 2.
    destruct (plausible (perform_single_ntp_query net i)); simpl; now rewrite <- app_assoc.
Qed.

Lemma fold_successful (l : list nat) (acc : query_acc) :
  successful_queries (fold_left (query_loop_body net) l acc) =
  successful_queries acc + Z.of_nat (length (filter plausible (map (perform_single_ntp_query net) l))).
Proof.
  revert acc. induction l as [|i l IH]; intros acc; simpl.
  - lia.
  - rewrite IH, query_loop_body_eq.
    destruct (plausible (perform_single_ntp_query net i)); simpl; lia.
Qed.

Lemma fold_sum (l : list nat) (acc : query_acc) :
  Z.abs (sum_offset acc) + Z.of_nat (length l) * NTP_ERROR_THRESHOLD <= INT64_MAX ->
  sum_offset (fold_left (query_loop_body net) l acc) =
  sum_offset acc + zsum (filter plausible (map (perform_single_ntp_query net) l)).
Proof.
  revert acc. induction l as [|i l IH]; intros acc Hb; simpl.
  - lia.
  - rewrite query_loop_body_eq.
    destruct (plausible (perform_single_ntp_query net i)) eqn:Hp.
    + apply plausible_spec in Hp. destruct Hp as [_ Hp].
      assert (Hw : wrap64 (sum_offset acc + perform_single_ntp_query net i) = sum_offset acc + perform_single_ntp_query net i).
      { apply wrap64_small. cbn [length] in Hb.
        unfold INT64_MIN. unfold INT64_MAX in *.
        rewrite threshold_value in *. lia. }
      rewrite IH; cbn [sum_offset]; rewrite Hw.
      * simpl. lia.
      * cbn [length] in Hb. rewrite threshold_value in *. lia.
    + rewrite IH; cbn [sum_offset]; [reflexivity|].
      cbn [length] in Hb. rewrite threshold_value in *. lia.
Qed.

Lemma query_loop_offsets : offsets (query_loop net) = map stored (samples net).
Proof. unfold query_loop. now rewrite fold_offsets. Qed.

Lemma query_loop_successful :
  successful_queries (query_loop net) = Z.of_nat (length (survivors net)).
Proof. unfold query_loop. now rewrite fold_successful. Qed.

Lemma query_loop_sum : sum_offset (query_loop net) = zsum (survivors net).
Proof.
  unfold query_loop. rewrite fold_sum; [reflexivity|].
  vm_compute. discriminate.
Qed.

End QueryLoop.

(** ** The selection loop of query_ntp_server *)

Lemma min_loop_body_error (m : Z) : min_loop_body m INT64_MAX = m.
Proof. unfold min_loop_body. now rewrite Z.eqb_refl. Qed.

Lemma min_loop_body_plausible (m o : Z) :
  plausible o = true ->
  min_loop_body m o = if Z.abs o <? Z.abs m then o else m.
Proof.
  intros Hp. apply plausible_spec in Hp. destruct Hp as [Hne _].
  unfold min_loop_body, labs. apply Z.eqb_neq in Hne. now rewrite Hne.
Qed.

Lemma min_fold_stored (l : list Z) (m : Z) :
  fold_left min_loop_body (map stored l) m =
  fold_left min_loop_body (filter plausible l) m.
Proof.
  revert m. induction l as [|o l IH]; intros m; simpl; [reflexivity|].
  change (stored o) with (if plausible o then o else INT64_MAX).
  destruct (plausible o); simpl.
  - apply IH.
  - rewrite min_loop_body_error. apply IH.
Qed.

Lemma min_fold_props (sv : list Z) (m : Z) :
  Forall (fun o => plausible o = true) sv ->
  let r := fold_left min_loop_body sv m in
  (r = m \/ In r sv) /\ Z.abs r <= Z.abs m /\ Forall (fun o => Z.abs r <= Z.abs o) sv.
Proof.
  revert m. induction sv as [|o sv IH]; intros m Hall; simpl.
  - repeat split; auto. lia.
  - inversion Hall as [|? ? Hp Hall']; subst.
    rewrite (min_loop_body_plausible m o Hp).
    destruct (IH (if Z.abs o <? Z.abs m then o else m) Hall') as (Hin & Hle & Hmin).
    destruct (Z.ltb_spec (Z.abs o) (Z.abs m)) as [Hlt | Hge].
    + repeat split.
      * destruct Hin as [-> | Hin]; auto.
      * lia.
      * constructor; assumption.
    + repeat split.
      * destruct Hin as [-> | Hin]; auto.
      * assumption.
      * constructor; [lia | assumption].
Qed.

Lemma survivors_plausible (net : ntp_net) :
  Forall (fun o => plausible o = true) (survivors net).
Proof.
  apply Forall_forall. intros o Hin. unfold survivors in Hin.
  apply filter_In in Hin. tauto.
Qed.

Lemma zsum_bound (sv : list Z) :
  Forall (fun o => plausible o = true) sv ->
  Z.abs (zsum sv) <= Z.of_nat (List.length sv) * (NTP_ERROR_THRESHOLD - 1).
Proof.
  induction 1 as [|o sv Hp _ IH]; simpl zsum; cbn [List.length].
  - simpl. lia.
  - apply plausible_spec in Hp. rewrite threshold_value in *. lia.
Qed.

Lemma average_bound (sv : list Z) :
  Forall (fun o => plausible o = true) sv -> sv <> [] ->
  Z.abs (Z.quot (zsum sv) (Z.of_nat (List.length sv))) < NTP_ERROR_THRESHOLD.
Proof.
  intros Hall Hne.
  assert (Hn : 0 < Z.of_nat (List.length sv)) by (destruct sv; [congruence | cbn [List.length]; lia]).
  pose proof (zsum_bound sv Hall) as Hb.
  rewrite <- Z.quot_abs by lia.
  rewrite (Z.abs_eq (Z.of_nat _)) by lia.
  rewrite Z.quot_div_nonneg by lia.
  apply Z.div_lt_upper_bound; [lia|].
  rewrite threshold_value in *. nia.
Qed.

(** What [select_offset] returns on the outcome of the query loop. *)
Lemma select_offset_eq (net : ntp_net) :
  survivors net <> [] ->
  select_offset (query_loop net) =
  fold_left min_loop_body (survivors net)
            (Z.quot (zsum (survivors net)) (Z.of_nat (List.length (survivors net)))).
Proof.
  intros Hne. unfold select_offset.
  rewrite query_loop_successful, query_loop_sum, query_loop_offsets.
  assert (Hn : 0 < Z.of_nat (List.length (survivors net)))
    by (destruct (survivors net); [congruence | cbn [List.length]; lia]).
  apply Z.ltb_lt in Hn. rewrite Hn. apply min_fold_stored.
Qed.

(** The selected offset is below the threshold, is the average or one of
    the survivors, and no survivor is smaller in magnitude. *)
Lemma select_offset_props (net : ntp_net) :
  survivors net <> [] ->
  let r := select_offset (query_loop net) in
  Z.abs r < NTP_ERROR_THRESHOLD /\
  (r = Z.quot (zsum (survivors net)) (Z.of_nat (List.length (survivors net)))
   \/ In r (survivors net)) /\
  Forall (fun o => Z.abs r <= Z.abs o) (survivors net).
Proof.
  intros Hne. cbv zeta. rewrite (select_offset_eq net Hne).
  pose proof (survivors_plausible net) as Hall.
  destruct (min_fold_props (survivors net)
              (Z.quot (zsum (survivors net)) (Z.of_nat (List.length (survivors net)))) Hall)
    as (Hin & Hle & Hmin).
  pose proof (average_bound _ Hall Hne).
  repeat split; [lia | assumption | assumption].
Qed.

Lemma query_ntp_server_connected (cfg : ntp_config) (net : ntp_net) (s : ntp_state) :
  socket_ok net = true -> sockopt_ok net = true -> resolve_ok net = true ->
  query_ntp_server cfg net s =
  if successful_queries (query_loop net) =? 0 then (-1, s)
  else if labs (select_offset (query_loop net)) <? NTP_ERROR_THRESHOLD
       then (0, publish_target cfg (select_offset (query_loop net)) s)
       else (-1, s).
Proof. intros H1 H2 H3. unfold query_ntp_server. now rewrite H1, H2, H3. Qed.

(** A call either fails and leaves the state alone, or some sample
    survived and the selected offset is published. *)
Lemma query_ntp_server_cases (cfg : ntp_config) (net : ntp_net) (s : ntp_state) :
  query_ntp_server cfg net s = (-1, s) \/
  (survivors net <> [] /\
   query_ntp_server cfg net s = (0, publish_target cfg (select_offset (query_loop net)) s)).
Proof.
  unfold query_ntp_server.
  destruct (socket_ok net); simpl; auto.
  destruct (sockopt_ok net); simpl; auto.
  destruct (resolve_ok net); simpl; auto.
  rewrite query_loop_successful.
  destruct (survivors net) as [|o sv] eqn:Hsv; [left; reflexivity|].
  right. split; [discriminate|].
  replace (Z.of_nat (List.length (o :: sv)) =? 0) with false
    by (symmetry; apply Z.eqb_neq; cbn [List.length]; lia).
  assert (Hne : survivors net <> []) by (rewrite Hsv; discriminate).
  destruct (select_offset_props net Hne) as (Hlt & _).
  unfold labs. apply Z.ltb_lt in Hlt. now rewrite Hlt.
Qed.

(** ** The frame count of a slew *)

(** Rounding to the nearest double and truncating to an integer never goes
    below an integer that the exact value reaches. *)
Lemma round_b64_lower (N sh K : Z) :
  0 < N -> 0 <= sh -> Z.log2 N - 52 <= sh -> N < 2 ^ (sh + 62) ->
  K * 2 ^ sh <= N ->
  K <= Double.to_int64 (Double.round_b64 N sh).
Proof.
  intros HN Hsh Hlog Hbig HK.
  assert (Hp : 0 < 2 ^ sh) by (apply Z.pow_pos_nonneg; lia).
  assert (Hsplit : 2 ^ (sh + 62) = 2 ^ sh * 2 ^ 62) by (apply Z.pow_add_r; lia).
  assert (H62 : 2 ^ 62 = 4611686018427387904) by reflexivity.
  unfold Double.round_b64. rewrite (Z.abs_eq N) by lia.
  destruct (Z.leb_spec (Z.log2 N) 52) as [Hsmall | Hlarge].
  - unfold Double.to_int64. cbn [Double.dnum Double.dexp].
    rewrite Z.quot_div_nonneg by lia.
    assert (Hlo : K <= N / 2 ^ sh) by (apply Z.div_le_lower_bound; lia).
    assert (Hhi : N / 2 ^ sh < 2 ^ 62) by (apply Z.div_lt_upper_bound; lia).
    assert (0 <= N / 2 ^ sh) by (apply Z.div_pos; lia).
    rewrite wrap64_small; [assumption|].
    unfold INT64_MIN, INT64_MAX. change (2 ^ 63) with 9223372036854775808. lia.
  - cbv zeta. set (s := Z.log2 N - 52) in *.
    assert (Hs : 0 < s) by lia.
    assert (Hps : 0 < 2 ^ s) by (apply Z.pow_pos_nonneg; lia).
    assert (Hlow : Z.shiftr N s = N / 2 ^ s) by (apply Z.shiftr_div_pow2; lia).
    rewrite Hlow.
    set (q := N / 2 ^ s).
    match goal with
    | |- context [if ?c then q + 1 else q] => set (q' := if c then q + 1 else q)
    end.
    assert (Hq' : q <= q' <= q + 1)
      by (subst q'; match goal with |- context [if ?c then _ else _] => destruct c end; lia).
    assert (Hd : 2 ^ sh = 2 ^ (sh - s) * 2 ^ s).
    { rewrite <- Z.pow_add_r by lia. f_equal. lia. }
    assert (Hpd : 0 < 2 ^ (sh - s)) by (apply Z.pow_pos_nonneg; lia).
    assert (Hq : K * 2 ^ (sh - s) <= q).
    { subst q. apply Z.div_le_lower_bound; [lia|]. rewrite Hd in HK. lia. }
    assert (Hqm : q * 2 ^ s <= N).
    { subst q. rewrite Z.mul_comm. apply Z.mul_div_le. lia. }
    assert (HsN : 2 ^ s <= N).
    { transitivity (2 ^ Z.log2 N).
      - apply Z.pow_le_mono_r; lia.
      - apply Z.log2_spec. lia. }
    rewrite (Z.sgn_pos N) by lia. rewrite Z.mul_1_l.
    unfold Double.to_int64. cbn [Double.dnum Double.dexp].
    assert (Hq0 : 0 <= q) by (subst q; apply Z.div_pos; lia).
    assert (Hnn : 0 <= q' * 2 ^ s) by (apply Z.mul_nonneg_nonneg; lia).
    rewrite Z.quot_div_nonneg by lia.
    assert (Hlo : K <= q' * 2 ^ s / 2 ^ sh).
    { apply Z.div_le_lower_bound; [lia|]. rewrite Hd. nia. }
    assert (Hhi : q' * 2 ^ s / 2 ^ sh < 2 ^ 63).
    { apply Z.div_lt_upper_bound; [lia|].
      change (2 ^ 63) with (2 * 2 ^ 62). nia. }
    assert (0 <= q' * 2 ^ s / 2 ^ sh) by (apply Z.div_pos; lia).
    rewrite wrap64_small; [assumption|].
    unfold INT64_MIN, INT64_MAX. lia.
Qed.

Lemma log2_below (N b : Z) : 0 < N -> 0 < b -> N < 2 ^ b -> Z.log2 N < b.
Proof. intros HN Hb H. apply Z.log2_lt_pow2; assumption. Qed.

(** The frame count reaches every integer that does not exceed
    [ntp_slew_period * selected_fps], taken exactly. *)
Lemma adjust_frames_lower (cfg : ntp_config) (K : Z) :
  valid_config cfg ->
  K * 2 ^ Double.dexp (selected_fps cfg)
    <= ntp_slew_period cfg * Double.dnum (selected_fps cfg) ->
  K <= adjust_frames cfg.
Proof.
  destruct cfg as [n f]. unfold valid_config, adjust_frames, Double.mul.
  cbn [ntp_slew_period selected_fps Double.of_int Double.dnum Double.dexp].
  intros [Hn Hf] HK.
  assert (Hcases : f = Double.d24 \/ f = Double.d25 \/ f = Double.d29_97 \/ f = Double.d30).
  { simpl in Hf. intuition auto. }
  assert (H36 : 2 ^ 36 = 68719476736) by reflexivity.
  assert (H98 : 2 ^ 98 = 316912650057057350374175801344) by reflexivity.
  assert (H45 : 2 ^ 45 = 35184372088832) by reflexivity.
  destruct Hcases as [-> | [-> | [-> | ->]]];
    cbn [Double.d24 Double.d25 Double.d30 Double.d29_97 Double.of_int
         Double.dnum Double.dexp] in *;
    apply round_b64_lower; try assumption; try lia.
  - enough (Z.log2 (n * 24) < 36) by lia. apply log2_below; lia.
  - enough (Z.log2 (n * 25) < 36) by lia. apply log2_below; lia.
  - enough (Z.log2 (n * 1054475631502295) < 98) by lia. apply log2_below; lia.
  - enough (Z.log2 (n * 30) < 36) by lia. apply log2_below; lia.
Qed.

Lemma adjust_frames_pos (cfg : ntp_config) : valid_config cfg -> 0 < adjust_frames cfg.
Proof.
  intros Hv. enough (1 <= adjust_frames cfg) by lia.
  apply adjust_frames_lower; [assumption|].
  destruct cfg as [n f]. destruct Hv as [Hn Hf].
  cbn [ntp_slew_period selected_fps] in *. simpl in Hf.
  assert (H45 : 2 ^ 45 = 35184372088832) by reflexivity.
  destruct Hf as [<- | [<- | [<- | [<- | [<- | [<- | []]]]]]];
    cbn [Double.d24 Double.d25 Double.d30 Double.d29_97 Double.of_int
         Double.dnum Double.dexp]; lia.
Qed.

(** At 29.97 fps an integer below [ntp_slew_period * 29.97], with the
    decimal 29.97, is below the product with the double 29.97 as well. *)
Lemma below_slew_frames_29_97 (n d : Z) :
  1 <= n <= 2147483647 ->
  d * 100 < n * 2997 ->
  below_slew_frames (mkCfg n Double.d29_97) d.
Proof.
  intros Hn Hd. unfold below_slew_frames.
  cbn [ntp_slew_period selected_fps Double.d29_97 Double.dnum Double.dexp].
  change (2 ^ 45) with 35184372088832. lia.
Qed.

(** ** The shared state under the two writers *)

Lemma quot_trunc (d A : Z) :
  0 < A ->
  exists r, d = A * Z.quot d A + r /\
            ((0 <= d /\ 0 <= r < A) \/ (d <= 0 /\ - A < r <= 0)).
Proof.
  intros HA. exists (Z.rem d A). split.
  - apply Z.quot_rem'.
  - destruct (Z.le_ge_cases 0 d) as [Hd | Hd].
    + left. split; [assumption|]. apply Z.rem_bound_pos; lia.
    + right. split; [assumption|]. apply Z.rem_bound_pos_neg; lia.
Qed.

Lemma slew_step_for_props (diff A : Z) :
  0 < A ->
  Z.abs (slew_step_for diff A) <= Z.abs diff /\
  (diff <> 0 -> slew_step_for diff A <> 0) /\
  (slew_step_for diff A <> 0 -> Z.sgn (slew_step_for diff A) = Z.sgn diff) /\
  (diff <> 0 -> Z.abs diff <= A -> slew_step_for diff A = Z.sgn diff).
Proof.
  intros HA. unfold slew_step_for.
  destruct (quot_trunc diff A HA) as (r & Hq & Hr).
  set (step := Z.quot diff A) in *.
  destruct (Z.eqb_spec diff 0) as [Hd0 | Hd0];
    destruct (Z.eqb_spec step 0) as [Hs0 | Hs0];
    destruct (Z.ltb_spec 0 diff) as [Hpos | Hneg]; cbn [negb andb];
    repeat split; intros; try lia; try nia.
Qed.

Lemma publish_target_eq (cfg : ntp_config) (m : Z) (s : ntp_state) :
  valid_config cfg ->
  Z.abs m < NTP_ERROR_THRESHOLD -> Z.abs (ntp_offset_us s) < NTP_ERROR_THRESHOLD ->
  publish_target cfg m s =
  mkNtp (ntp_offset_us s) m (slew_step_for (m - ntp_offset_us s) (adjust_frames cfg)).
Proof.
  intros Hv Hm Ho. unfold publish_target.
  pose proof (adjust_frames_pos cfg Hv) as HA.
  apply Z.ltb_lt in HA. rewrite HA.
  rewrite wrap64_small; [reflexivity|].
  unfold INT64_MIN, INT64_MAX. rewrite threshold_value in *. lia.
Qed.

Lemma slew_step_inv (s : ntp_state) : ntp_inv s -> ntp_inv (slew_step s).
Proof.
  destruct s as [off tgt stp]. unfold ntp_inv, slew_step.
  cbn [ntp_offset_us ntp_target_offset_us ntp_adjustment_step_us].
  rewrite threshold_value. intros (Ho & Ht & Hs & Hp).
  destruct (Z.eqb_spec off tgt); destruct (Z.eqb_spec stp 0); cbn [negb andb];
    cbn [ntp_offset_us ntp_target_offset_us ntp_adjustment_step_us]; try lia.
  rewrite wrap64_small by (unfold INT64_MIN, INT64_MAX; lia).
  destruct (Z.ltb_spec 0 stp); destruct (Z.leb_spec tgt (off + stp));
    destruct (Z.ltb_spec stp 0); destruct (Z.leb_spec (off + stp) tgt);
    cbn [andb orb ntp_offset_us ntp_target_offset_us ntp_adjustment_step_us]; lia.
Qed.

Lemma publish_target_inv (cfg : ntp_config) (m : Z) (s : ntp_state) :
  valid_config cfg -> Z.abs m < NTP_ERROR_THRESHOLD ->
  ntp_inv s -> ntp_inv (publish_target cfg m s).
Proof.
  intros Hv Hm (Ho & Ht & Hs & Hp).
  rewrite publish_target_eq by assumption.
  pose proof (slew_step_for_props (m - ntp_offset_us s) (adjust_frames cfg)
                (adjust_frames_pos cfg Hv)) as (Habs & Hnz & _).
  unfold ntp_inv. cbn [ntp_offset_us ntp_target_offset_us ntp_adjustment_step_us].
  rewrite threshold_value in *. repeat split; lia.
Qed.

Lemma query_ntp_server_inv (cfg : ntp_config) (net : ntp_net) (s : ntp_state) :
  valid_config cfg -> ntp_inv s -> ntp_inv (snd (query_ntp_server cfg net s)).
Proof.
  intros Hv Hi.
  destruct (query_ntp_server_cases cfg net s) as [-> | [Hne ->]]; [assumption|].
  apply publish_target_inv; try assumption.
  apply (select_offset_props net Hne).
Qed.

Lemma ntp_run_inv (cfg : ntp_config) (evs : list ntp_event) :
  valid_config cfg -> ntp_inv (ntp_run cfg evs).
Proof.
  intros Hv. unfold ntp_run.
  assert (H0 : ntp_inv ntp_init).
  { unfold ntp_inv, ntp_init. rewrite threshold_value. simpl. repeat split; lia. }
  revert H0. generalize ntp_init.
  induction evs as [|e evs IH]; intros s Hs; simpl; [assumption|].
  apply IH. destruct e as [|net]; simpl.
  - now apply slew_step_inv.
  - now apply query_ntp_server_inv.
Qed.

Lemma slew_step_distance (s : ntp_state) :
  ntp_inv s ->
  (slew_distance s <> 0 -> slew_distance (slew_step s) < slew_distance s) /\
  (slew_distance s = 0 -> slew_distance (slew_step s) = 0).
Proof.
  destruct s as [off tgt stp]. unfold ntp_inv, slew_distance, slew_step.
  cbn [ntp_offset_us ntp_target_offset_us ntp_adjustment_step_us].
  rewrite threshold_value. intros (Ho & Ht & Hs & Hp).
  destruct (Z.eqb_spec off tgt); destruct (Z.eqb_spec stp 0); cbn [negb andb];
    cbn [ntp_offset_us ntp_target_offset_us ntp_adjustment_step_us]; try lia.
  rewrite wrap64_small by (unfold INT64_MIN, INT64_MAX; lia).
  destruct (Z.ltb_spec 0 stp); destruct (Z.leb_spec tgt (off + stp));
    destruct (Z.ltb_spec stp 0); destruct (Z.leb_spec (off + stp) tgt);
    cbn [andb orb ntp_offset_us ntp_target_offset_us ntp_adjustment_step_us]; lia.
Qed.

Lemma publish_target_target (cfg : ntp_config) (m : Z) (s : ntp_state) :
  ntp_target_offset_us (publish_target cfg m s) = m.
Proof. unfold publish_target. now destruct (0 <? adjust_frames cfg). Qed.

Lemma publish_target_offset (cfg : ntp_config) (m : Z) (s : ntp_state) :
  ntp_offset_us (publish_target cfg m s) = ntp_offset_us s.
Proof. unfold publish_target. now destruct (0 <? adjust_frames cfg). Qed.

(** A sync that returns 0 on a state of a run has published the selected
    offset with the step computed from the difference. *)
Lemma query_ntp_server_success (cfg : ntp_config) (net : ntp_net) (s s' : ntp_state) :
  valid_config cfg -> ntp_inv s ->
  query_ntp_server cfg net s = (0, s') ->
  exists m, Z.abs m < NTP_ERROR_THRESHOLD /\
            s' = mkNtp (ntp_offset_us s) m
                       (slew_step_for (m - ntp_offset_us s) (adjust_frames cfg)).
Proof.
  intros Hv (Ho & _) Hq.
  destruct (query_ntp_server_cases cfg net s) as [Hf | [Hne Hs]].
  - rewrite Hf in Hq. discriminate.
  - rewrite Hs in Hq. injection Hq as <-.
    destruct (select_offset_props net Hne) as (Hlt & _).
    exists (select_offset (query_loop net)). split; [assumption|].
    now apply publish_target_eq.
Qed.

(** ** The slew of 250 ms at 25 fps *)

Lemma slew_250_before (k : nat) :
  (k <= 750)%nat ->
  Nat.iter k slew_step (mkNtp 0 250000 333) = mkNtp (333 * Z.of_nat k) 250000 333.
Proof.
  induction k as [|k IH]; intros Hk; [reflexivity|].
  rewrite Nat.iter_succ, IH by lia.
  replace (333 * Z.of_nat (S k)) with (333 * Z.of_nat k + 333) by lia.
  unfold slew_step.
  cbn [ntp_offset_us ntp_target_offset_us ntp_adjustment_step_us].
  rewrite wrap64_small by (unfold INT64_MIN, INT64_MAX; lia).
  destruct (Z.eqb_spec (333 * Z.of_nat k) 250000); [lia|].
  destruct (Z.leb_spec 250000 (333 * Z.of_nat k + 333)); [lia|].
  reflexivity.
Qed.

Lemma slew_250_after (j : nat) :
  Nat.iter (751 + j) slew_step (mkNtp 0 250000 333) = mkNtp 250000 250000 0.
Proof.
  induction j as [|j IH].
  - replace (751 + 0)%nat with (S 750) by reflexivity.
    rewrite Nat.iter_succ, slew_250_before by lia. reflexivity.
  - replace (751 + S j)%nat with (S (751 + j)) by lia.
    rewrite Nat.iter_succ, IH. reflexivity.
Qed.

(** ** The code on the inputs of the specification *)

(** Samples 5000, -300, 9999999 and 450 (one query lost): -300 is
    published. *)
Example query_selects_minus_300 :
  query_ntp_server (mkCfg 30 Double.d25)
    (mkNet true true true [5000; -300; 9999999; 450; INT64_MAX]) ntp_init
  = (0, mkNtp 0 (-300) (-1)).
Proof. vm_compute. reflexivity. Qed.

(** A sample of ten seconds or more is dropped. *)
Example query_drops_implausible :
  survivors (mkNet true true true [5000; -300; 10000000; 450; -12000000])
  = [5000; -300; 450].
Proof. vm_compute. reflexivity. Qed.

(** The frame count of a slew of 30 s: 750 frames at 25 fps, 899 at
    29.97 fps (the product is 899.1). *)
Example adjust_frames_values :
  adjust_frames (mkCfg 30 Double.d25) = 750 /\
  adjust_frames (mkCfg 30 Double.d29_97) = 899 /\
  adjust_frames (mkCfg 100 Double.d29_97) = 2997.
Proof. vm_compute. repeat split; reflexivity. Qed.

(** The last microsecond of a second, clamped, at each supported rate. *)
Example clamped_frame_last :
  map (fun r => clamped_frame (fps r) 999999) supported_rates = [23; 24; 28; 29; 28; 29].
Proof. vm_compute. reflexivity. Qed.

(** A wait of three seconds during which the third read finds the flag
    cleared; the query is made all the same. *)
Example sync_cycle_interrupted :
  sync_cycle 3 (fun k => Nat.leb k 2) 0
  = [Ev_check true; Ev_check true; Ev_sleep 1; Ev_check true; Ev_sleep 1;
     Ev_check false; Ev_query].
Proof. vm_compute. reflexivity. Qed.

(** ** Claims on the NTP synchronizer *)

(** C1 (evaluated at an input where it fails).  Five replies
    300, -200, 250, -350 and 100 microseconds all pass the filter; the
    sample of least magnitude is 100, but [query_ntp_server] publishes
    their average 20, which is none of the samples. *)
Theorem min_offset_not_a_sample :
  let net := mkNet true true true [300; -200; 250; -350; 100] in
  survivors net = [300; -200; 250; -350; 100] /\
  query_ntp_server (mkCfg 30 Double.d25) net ntp_init = (0, mkNtp 0 20 1) /\
  ~ In 20 (survivors net) /\
  In 100 (survivors net) /\
  Forall (fun o => Z.abs 100 <= Z.abs o) (survivors net).
Proof.
  cbv zeta.
  assert (Hs : survivors (mkNet true true true [300; -200; 250; -350; 100])
               = [300; -200; 250; -350; 100]) by (vm_compute; reflexivity).
  rewrite Hs. split; [reflexivity|]. split; [vm_compute; reflexivity|].
  split; [|split].
  - simpl. intros H. repeat (destruct H as [H | H]; [discriminate H|]). exact H.
  - simpl. tauto.
  - repeat constructor; simpl; lia.
Qed.

(** C2 (as stated, refuted).  With offset 0, target 250000, a slew period
    of 30 s and 25 fps the step is 333, and no number of steps up to 750
    brings the offset to 250000. *)
Lemma slew_250ms_not_within_750 :
  let s0 := snd (query_ntp_server (mkCfg 30 Double.d25)
                   (mkNet true true true [250000; 250000; 250000; 250000; 250000])
                   ntp_init) in
  ~ (exists k : nat, (k <= 750)%nat /\
                     ntp_offset_us (Nat.iter k slew_step s0) = 250000).
Proof.
  cbv zeta.
  replace (snd _) with (mkNtp 0 250000 333) by (vm_compute; reflexivity).
  intros (k & Hk & Hoff). rewrite slew_250_before in Hoff by assumption.
  cbn [ntp_offset_us] in Hoff. lia.
Qed.

(** C2 (amended).  The sync publishes target 250000 with step
    250000 / 750 = 333; after [k] frames the offset is the smaller of
    [333 * k] and 250000, so it never passes the target, stands at 249750
    after 750 frames and is exactly 250000, with the step zeroed, after
    the 751st. *)
Theorem slew_250ms_reaches_at_751 :
  let s0 := snd (query_ntp_server (mkCfg 30 Double.d25)
                   (mkNet true true true [250000; 250000; 250000; 250000; 250000])
                   ntp_init) in
  s0 = mkNtp 0 250000 333 /\
  (forall k : nat,
     ntp_offset_us (Nat.iter k slew_step s0) = Z.min (333 * Z.of_nat k) 250000) /\
  Nat.iter 750 slew_step s0 = mkNtp 249750 250000 333 /\
  Nat.iter 751 slew_step s0 = mkNtp 250000 250000 0.
Proof.
  cbv zeta.
  replace (snd _) with (mkNtp 0 250000 333) by (vm_compute; reflexivity).
  split; [reflexivity|]. split; [|split].
  - intros k. destruct (Nat.le_gt_cases k 750) as [Hk | Hk].
    + rewrite slew_250_before by assumption. cbn [ntp_offset_us]. lia.
    + replace k with (751 + (k - 751))%nat by lia.
      rewrite slew_250_after. cbn [ntp_offset_us]. lia.
  - rewrite slew_250_before by lia. reflexivity.
  - apply (slew_250_after 0).
Qed.

(** C3.  On every state a run of the program reaches, a slew step brings
    the offset strictly nearer to the target when it is not there yet and
    leaves it there otherwise; and a sync that publishes a nonzero step
    gives it the sign of target minus offset. *)
Theorem slew_distance_decreases (cfg : ntp_config) (evs : list ntp_event) :
  valid_config cfg ->
  let s := ntp_run cfg evs in
  (slew_distance s <> 0 -> slew_distance (slew_step s) < slew_distance s) /\
  (slew_distance s = 0 -> slew_distance (slew_step s) = 0) /\
  (forall net s',
     query_ntp_server cfg net s = (0, s') ->
     ntp_adjustment_step_us s' <> 0 ->
     Z.sgn (ntp_adjustment_step_us s')
     = Z.sgn (ntp_target_offset_us s' - ntp_offset_us s')).
Proof.
  intros Hv s. pose proof (ntp_run_inv cfg evs Hv) as Hi. fold s in Hi.
  destruct (slew_step_distance s Hi) as [Hdec Hzero].
  split; [assumption|]. split; [assumption|].
  intros net s' Hq Hnz.
  destruct (query_ntp_server_success cfg net s s' Hv Hi Hq) as (m & Hm & ->).
  cbn [ntp_offset_us ntp_target_offset_us ntp_adjustment_step_us] in *.
  apply (slew_step_for_props _ _ (adjust_frames_pos cfg Hv)). assumption.
Qed.

Lemma slew_distance_decreases_witness :
  slew_distance
    (slew_step (ntp_run (mkCfg 30 Double.d25)
                  [Ev_sync (mkNet true true true [5000; -300; 9999999; 450; 120]);
                   Ev_frame]))
  < slew_distance
      (ntp_run (mkCfg 30 Double.d25)
         [Ev_sync (mkNet true true true [5000; -300; 9999999; 450; 120]);
          Ev_frame]).
Proof.
  refine (proj1 (slew_distance_decreases (mkCfg 30 Double.d25)
                   [Ev_sync (mkNet true true true [5000; -300; 9999999; 450; 120]);
                    Ev_frame] _) _).
  - split; [vm_compute; split; discriminate | simpl; auto].
  - vm_compute. discriminate.
Defined.

(** C4.  After a successful sync on a state of a run, a difference
    target - offset that is not zero and is smaller in magnitude than
    [ntp_slew_period * selected_fps] leaves the step at +1 or -1, by the
    sign of the difference, and never at 0; whenever the magnitude is below
    the frame count the quotient itself is 0. *)
Theorem slew_forced_progress (cfg : ntp_config) (evs : list ntp_event)
    (net : ntp_net) (s' : ntp_state) :
  valid_config cfg ->
  query_ntp_server cfg net (ntp_run cfg evs) = (0, s') ->
  let diff := ntp_target_offset_us s' - ntp_offset_us s' in
  diff <> 0 ->
  below_slew_frames cfg (Z.abs diff) ->
  ntp_adjustment_step_us s' = (if 0 <? diff then 1 else -1) /\
  ntp_adjustment_step_us s' <> 0 /\
  (Z.abs diff < adjust_frames cfg -> Z.quot diff (adjust_frames cfg) = 0).
Proof.
  intros Hv Hq diff Hnz Hlt.
  pose proof (ntp_run_inv cfg evs Hv) as Hi.
  destruct (query_ntp_server_success cfg net _ s' Hv Hi Hq) as (m & Hm & ->).
  cbn [ntp_offset_us ntp_target_offset_us ntp_adjustment_step_us] in *.
  assert (Hle : Z.abs diff <= adjust_frames cfg).
  { apply adjust_frames_lower; [assumption|]. unfold below_slew_frames in Hlt. lia. }
  pose proof (adjust_frames_pos cfg Hv) as HA.
  destruct (slew_step_for_props diff (adjust_frames cfg) HA) as (_ & _ & _ & Hunit).
  fold diff. rewrite (Hunit Hnz Hle).
  split; [|split].
  - destruct (Z.ltb_spec 0 diff); lia.
  - lia.
  - intros Hsmall. destruct (quot_trunc diff (adjust_frames cfg) HA) as (r & Hr & Hc). nia.
Qed.

Lemma slew_forced_progress_witness :
  ntp_adjustment_step_us (mkNtp 0 (-300) (-1)) = -1.
Proof.
  refine (proj1 (slew_forced_progress (mkCfg 30 Double.d25) []
                   (mkNet true true true [5000; -300; 9999999; 450; INT64_MAX])
                   (mkNtp 0 (-300) (-1)) _ _ _ _)).
  - split; [vm_compute; split; discriminate | simpl; auto].
  - vm_compute. reflexivity.
  - vm_compute. discriminate.
  - vm_compute. reflexivity.
Defined.

(** C5.  A cycle in which no sample survives returns -1 and leaves the
    offset, the target and the step as they were. *)
Theorem sync_failure_keeps_state (cfg : ntp_config) (net : ntp_net) (s : ntp_state) :
  survivors net = [] ->
  fst (query_ntp_server cfg net s) = -1 /\
  snd (query_ntp_server cfg net s) = s /\
  ntp_offset_us (snd (query_ntp_server cfg net s)) = ntp_offset_us s /\
  ntp_target_offset_us (snd (query_ntp_server cfg net s)) = ntp_target_offset_us s /\
  ntp_adjustment_step_us (snd (query_ntp_server cfg net s)) = ntp_adjustment_step_us s.
Proof.
  intros Hnone.
  destruct (query_ntp_server_cases cfg net s) as [-> | [Hne _]]; [|contradiction].
  cbn [fst snd]. repeat split; reflexivity.
Qed.

Lemma sync_failure_keeps_state_witness :
  snd (query_ntp_server (mkCfg 30 Double.d25)
         (mkNet true true true [INT64_MAX; 12000000; -10000000; INT64_MAX])
         (mkNtp 100 250 3))
  = mkNtp 100 250 3.
Proof.
  refine (proj1 (proj2 (sync_failure_keeps_state (mkCfg 30 Double.d25)
            (mkNet true true true [INT64_MAX; 12000000; -10000000; INT64_MAX])
            (mkNtp 100 250 3) _))).
  vm_compute. reflexivity.
Defined.

(** C10.  When the cycle runs and some sample survives the filter, the
    selected offset (the truncated average of the survivors, replaced in
    turn by each survivor of strictly smaller magnitude) is below the
    threshold in magnitude too, so the call takes the branch that
    publishes it, returns 0 and the target is the selected offset. *)
Theorem selected_offset_plausible (cfg : ntp_config) (net : ntp_net) (s : ntp_state) :
  socket_ok net = true -> sockopt_ok net = true -> resolve_ok net = true ->
  survivors net <> [] ->
  select_offset (query_loop net)
  = fold_left min_loop_body (survivors net)
      (Z.quot (zsum (survivors net)) (Z.of_nat (List.length (survivors net)))) /\
  labs (select_offset (query_loop net)) < NTP_ERROR_THRESHOLD /\
  query_ntp_server cfg net s
  = (0, publish_target cfg (select_offset (query_loop net)) s) /\
  ntp_target_offset_us (snd (query_ntp_server cfg net s))
  = select_offset (query_loop net).
Proof.
  intros H1 H2 H3 Hne.
  destruct (select_offset_props net Hne) as (Hlt & _).
  split; [now apply select_offset_eq|].
  split; [exact Hlt|].
  assert (Hq : query_ntp_server cfg net s
               = (0, publish_target cfg (select_offset (query_loop net)) s)).
  { rewrite query_ntp_server_connected by assumption.
    rewrite query_loop_successful.
    replace (Z.of_nat (List.length (survivors net)) =? 0) with false.
    - unfold labs. apply Z.ltb_lt in Hlt. now rewrite Hlt.
    - symmetry. apply Z.eqb_neq.
      destruct (survivors net); [congruence | cbn [List.length]; lia]. }
  split; [exact Hq|].
  rewrite Hq. cbn [snd]. apply publish_target_target.
Qed.

Lemma selected_offset_plausible_witness :
  ntp_target_offset_us
    (snd (query_ntp_server (mkCfg 30 Double.d29_97)
            (mkNet true true true [9999999; -9999999; 9999998; INT64_MAX; 9999999])
            ntp_init))
  = select_offset
      (query_loop (mkNet true true true [9999999; -9999999; 9999998; INT64_MAX; 9999999])).
Proof.
  refine (proj2 (proj2 (proj2 (selected_offset_plausible (mkCfg 30 Double.d29_97)
            (mkNet true true true [9999999; -9999999; 9999998; INT64_MAX; 9999999])
            ntp_init _ _ _ _)))).
  - reflexivity.
  - reflexivity.
  - reflexivity.
  - vm_compute. discriminate.
Defined.

(** ** The frame number *)

Lemma supported_fps (r : framerate_spec_t) :
  In r supported_rates ->
  fps r = Double.d24 \/ fps r = Double.d25 \/ fps r = Double.d29_97 \/ fps r = Double.d30.
Proof.
  simpl. intros [<- | [<- | [<- | [<- | [<- | [<- | []]]]]]]; cbn [fps]; auto.
Qed.

Lemma supported_drop_frame (r : framerate_spec_t) :
  In r supported_rates -> drop_frame r = true ->
  fps r = Double.d29_97 \/ fps r = Double.d30.
Proof.
  simpl. intros [<- | [<- | [<- | [<- | [<- | [<- | []]]]]]]; cbn [fps drop_frame];
    auto; discriminate.
Qed.

Lemma frac_bounds (t : Z) :
  - MICROSECONDS_PER_SECOND < Z.rem t MICROSECONDS_PER_SECOND < MICROSECONDS_PER_SECOND /\
  (0 <= t -> 0 <= Z.rem t MICROSECONDS_PER_SECOND).
Proof.
  unfold MICROSECONDS_PER_SECOND.
  destruct (Z.le_gt_cases 0 t) as [Ht | Ht].
  - pose proof (Z.rem_bound_pos t 1000000 Ht). lia.
  - pose proof (Z.rem_bound_pos_neg t 1000000). lia.
Qed.

(** The clamped frame, for a rate whose frame length is [u] microseconds
    and whose clamp bound is [B]. *)
Lemma clamped_frame_unfold (f : Double.double) (num den u B t : Z) :
  frame_rational f = (num, den) ->
  Z.quot (wrap64 (MICROSECONDS_PER_SECOND * den)) num = u ->
  to_int (Z.quot num den) = B ->
  33333 <= u -> 1 <= B <= 30 ->
  let d := Z.quot (Z.rem t MICROSECONDS_PER_SECOND) u in
  -30 <= d <= 30 /\ (0 <= t -> 0 <= d) /\
  derived_frame f (Z.rem t MICROSECONDS_PER_SECOND) = d /\
  clamped_frame f t = (if B <=? d then B - 1 else d).
Proof.
  intros Hfr Hu HB Hu33 HB30 d.
  destruct (frac_bounds t) as [Hr Hr0].
  subst d. set (R := Z.rem t MICROSECONDS_PER_SECOND) in *.
  change MICROSECONDS_PER_SECOND with 1000000 in Hr.
  destruct (quot_trunc R u ltac:(lia)) as (r' & Hq & Hc).
  set (d := Z.quot R u) in *.
  assert (Hd : -30 <= d <= 30) by (destruct Hc; nia).
  assert (Hd0 : 0 <= t -> 0 <= d) by (intros Ht; specialize (Hr0 Ht); destruct Hc; nia).
  assert (Hder : derived_frame f (Z.rem t MICROSECONDS_PER_SECOND) = d).
  { unfold derived_frame. rewrite Hfr, Hu. fold d. apply to_int_small. lia. }
  repeat split; try lia; try assumption.
  unfold clamped_frame, clamp_frame. rewrite Hder, Hfr, HB.
  destruct (Z.leb_spec B d); [|reflexivity].
  apply to_int_small. lia.
Qed.

(** Frame length and clamp bound of the four rates. *)
Lemma clamped_frame_24 (t : Z) :
  let d := Z.quot (Z.rem t MICROSECONDS_PER_SECOND) 41666 in
  -30 <= d <= 30 /\ (0 <= t -> 0 <= d) /\
  derived_frame Double.d24 (Z.rem t MICROSECONDS_PER_SECOND) = d /\
  clamped_frame Double.d24 t = (if 24 <=? d then 24 - 1 else d).
Proof. apply (clamped_frame_unfold Double.d24 24000 1000); (reflexivity || lia). Qed.

Lemma clamped_frame_25 (t : Z) :
  let d := Z.quot (Z.rem t MICROSECONDS_PER_SECOND) 40000 in
  -30 <= d <= 30 /\ (0 <= t -> 0 <= d) /\
  derived_frame Double.d25 (Z.rem t MICROSECONDS_PER_SECOND) = d /\
  clamped_frame Double.d25 t = (if 25 <=? d then 25 - 1 else d).
Proof. apply (clamped_frame_unfold Double.d25 25000 1000); (reflexivity || lia). Qed.

Lemma clamped_frame_29_97 (t : Z) :
  let d := Z.quot (Z.rem t MICROSECONDS_PER_SECOND) 33366 in
  -30 <= d <= 30 /\ (0 <= t -> 0 <= d) /\
  derived_frame Double.d29_97 (Z.rem t MICROSECONDS_PER_SECOND) = d /\
  clamped_frame Double.d29_97 t = (if 29 <=? d then 29 - 1 else d).
Proof. apply (clamped_frame_unfold Double.d29_97 30000 1001); (reflexivity || lia). Qed.

Lemma clamped_frame_30 (t : Z) :
  let d := Z.quot (Z.rem t MICROSECONDS_PER_SECOND) 33333 in
  -30 <= d <= 30 /\ (0 <= t -> 0 <= d) /\
  derived_frame Double.d30 (Z.rem t MICROSECONDS_PER_SECOND) = d /\
  clamped_frame Double.d30 t = (if 30 <=? d then 30 - 1 else d).
Proof. apply (clamped_frame_unfold Double.d30 30000 1000); (reflexivity || lia). Qed.

(** For a supported rate the clamped frame is at most [round(fps) - 1],
    and not negative when the time is not. *)
Lemma clamped_frame_range (f : Double.double) (t : Z) :
  f = Double.d24 \/ f = Double.d25 \/ f = Double.d29_97 \/ f = Double.d30 ->
  -30 <= clamped_frame f t <= Double.round f - 1 /\
  (0 <= t -> 0 <= clamped_frame f t).
Proof.
  intros [-> | [-> | [-> | ->]]].
  - destruct (clamped_frame_24 t) as (Hd & Hd0 & _ & ->).
    change (Double.round Double.d24) with 24.
    destruct (Z.leb_spec 24 (Z.quot (Z.rem t MICROSECONDS_PER_SECOND) 41666)); lia.
  - destruct (clamped_frame_25 t) as (Hd & Hd0 & _ & ->).
    change (Double.round Double.d25) with 25.
    destruct (Z.leb_spec 25 (Z.quot (Z.rem t MICROSECONDS_PER_SECOND) 40000)); lia.
  - destruct (clamped_frame_29_97 t) as (Hd & Hd0 & _ & ->).
    change (Double.round Double.d29_97) with 30.
    destruct (Z.leb_spec 29 (Z.quot (Z.rem t MICROSECONDS_PER_SECOND) 33366)); lia.
  - destruct (clamped_frame_30 t) as (Hd & Hd0 & _ & ->).
    change (Double.round Double.d30) with 30.
    destruct (Z.leb_spec 30 (Z.quot (Z.rem t MICROSECONDS_PER_SECOND) 33333)); lia.
Qed.

Lemma round_supported (f : Double.double) :
  f = Double.d24 \/ f = Double.d25 \/ f = Double.d29_97 \/ f = Double.d30 ->
  24 <= Double.round f <= 30.
Proof. intros [-> | [-> | [-> | ->]]]; vm_compute; split; discriminate. Qed.

Lemma to_uchar_small (x : Z) : 0 <= x < 256 -> to_uchar x = x.
Proof. intros H. unfold to_uchar. apply Z.mod_small. assumption. Qed.

Lemma timecode_at_frame (localtime : Z -> tm) (f : Double.double) (df : bool) (t : Z) :
  frame (timecode_at localtime f df t)
  = to_uchar (drop_frame_rule df (mins (timecode_at localtime f df t)) (clamped_frame f t)).
Proof. reflexivity. Qed.

Lemma timecode_at_drop (localtime : Z -> tm) (f : Double.double) (t : Z) :
  f = Double.d29_97 \/ f = Double.d30 ->
  let tc := timecode_at localtime f true t in
  let c := clamped_frame f t in
  (Z.rem (mins tc) 10 <> 0 ->
   frame tc <> 0 /\ frame tc <> 1 /\ frame tc = Z.max 2 c) /\
  (Z.rem (mins tc) 10 = 0 -> 0 <= c -> frame tc = c).
Proof.
  intros Hf tc c.
  assert (Hc : -30 <= c <= 29).
  { destruct (clamped_frame_range f t) as [Hr _]; [tauto|].
    assert (Double.round f <= 30) by (apply round_supported; tauto).
    subst c. lia. }
  subst tc. rewrite timecode_at_frame. fold c. unfold drop_frame_rule.
  set (m := mins (timecode_at localtime f true t)).
  destruct (Z.eqb_spec (Z.rem m 10) 0) as [Hm | Hm]; cbn [negb andb].
  - split; [intros; contradiction|]. intros _ Hc0. apply to_uchar_small. lia.
  - split; [|intros; contradiction]. intros _.
    destruct (Z.ltb_spec c 2) as [Hlt | Hge].
    + rewrite to_uchar_small by lia. lia.
    + rewrite to_uchar_small by lia. lia.
Qed.

(** ** Claims on the timecode clock *)

(** C6.  For a supported rate with [drop_frame] set, in a minute that is
    not a multiple of ten the frame of the output timecode and of the
    display timecode is neither 0 nor 1: it is the clamped frame raised to
    2 when that is below 2.  In a minute that is a multiple of ten the
    clamped frame, 0 and 1 included, is returned as it is. *)
Theorem drop_frame_skips_0_1 (localtime : Z -> tm) (r : framerate_spec_t)
    (ts : timespec) (use_ntp : bool) (s : ntp_state) (pcm : pcm_answer)
    (processing_offset_us ntp_offset : Z) :
  In r supported_rates -> drop_frame r = true ->
  let out := fst (get_timecode_with_alsa_latency localtime (fps r) (drop_frame r)
                    ts use_ntp s pcm processing_offset_us) in
  let dsp := get_display_timecode localtime (fps r) (drop_frame r) ts ntp_offset in
  let c_out := clamped_frame (fps r) (adjusted_time_us ts use_ntp s pcm processing_offset_us) in
  let c_dsp := clamped_frame (fps r) (wrap64 (clock_us ts + ntp_offset)) in
  (Z.rem (mins out) 10 <> 0 ->
   frame out <> 0 /\ frame out <> 1 /\ frame out = Z.max 2 c_out) /\
  (Z.rem (mins out) 10 = 0 -> 0 <= c_out -> frame out = c_out) /\
  (Z.rem (mins dsp) 10 <> 0 ->
   frame dsp <> 0 /\ frame dsp <> 1 /\ frame dsp = Z.max 2 c_dsp) /\
  (Z.rem (mins dsp) 10 = 0 -> 0 <= c_dsp -> frame dsp = c_dsp).
Proof.
  intros Hin Hdf out dsp c_out c_dsp.
  pose proof (supported_drop_frame r Hin Hdf) as Hf.
  subst out dsp c_out c_dsp. rewrite Hdf.
  unfold get_timecode_with_alsa_latency, get_display_timecode. cbn [fst].
  destruct (timecode_at_drop localtime (fps r)
              (adjusted_time_us ts use_ntp s pcm processing_offset_us) Hf) as [H1 H2].
  destruct (timecode_at_drop localtime (fps r)
              (wrap64 (clock_us ts + ntp_offset)) Hf) as [H3 H4].
  split; [exact H1 | split; [exact H2 | split; [exact H3 | exact H4]]].
Qed.

Lemma drop_frame_skips_0_1_witness :
  let localtime := fun t : Z =>
    mkTm 126 10 1 (Z.rem (Z.quot t 3600) 24) (Z.rem (Z.quot t 60) 60) (Z.rem t 60) in
  let out := fst (get_timecode_with_alsa_latency localtime Double.d29_97 true
                    (mkTimespec 1793491260 1000000) false ntp_init
                    (mkPcm true 0 true 0) 0) in
  mins out = 1 /\ frame out = 2.
Proof.
  cbv zeta.
  pose proof (drop_frame_skips_0_1
                (fun t : Z =>
                   mkTm 126 10 1 (Z.rem (Z.quot t 3600) 24) (Z.rem (Z.quot t 60) 60)
                        (Z.rem t 60))
                (mkRate Double.d29_97 LTC_TV_525_60 true "29.97df")
                (mkTimespec 1793491260 1000000)
                false ntp_init (mkPcm true 0 true 0) 0 0) as H.
  cbv zeta in H.
  destruct H as (H1 & _); [simpl; tauto | reflexivity |].
  split; [vm_compute; reflexivity|].
  destruct H1 as (_ & _ & Hf); [vm_compute; discriminate|].
  etransitivity; [exact Hf | vm_compute; reflexivity].
Defined.

(** C7.  For a supported rate and an adjusted time that is not negative,
    the frame of the output timecode lies in [0, round(fps)): the clamped
    frame is between 0 and [round(fps) - 1] before the drop-frame block,
    which the frame returned comes from. *)
Theorem output_frame_in_range (localtime : Z -> tm) (r : framerate_spec_t)
    (ts : timespec) (use_ntp : bool) (s : ntp_state) (pcm : pcm_answer)
    (processing_offset_us : Z) :
  In r supported_rates ->
  0 <= adjusted_time_us ts use_ntp s pcm processing_offset_us ->
  let out := fst (get_timecode_with_alsa_latency localtime (fps r) (drop_frame r)
                    ts use_ntp s pcm processing_offset_us) in
  let c := clamped_frame (fps r) (adjusted_time_us ts use_ntp s pcm processing_offset_us) in
  0 <= frame out < Double.round (fps r) /\
  0 <= c <= Double.round (fps r) - 1 /\
  frame out = drop_frame_rule (drop_frame r) (mins out) c.
Proof.
  intros Hin Ht out c.
  pose proof (supported_fps r Hin) as Hf.
  destruct (clamped_frame_range (fps r)
              (adjusted_time_us ts use_ntp s pcm processing_offset_us) Hf) as [Hr Hr0].
  specialize (Hr0 Ht). fold c in Hr, Hr0.
  pose proof (round_supported (fps r) Hf) as Hround.
  subst out. unfold get_timecode_with_alsa_latency. cbn [fst].
  rewrite timecode_at_frame. fold c.
  set (m := mins (timecode_at localtime (fps r) (drop_frame r) _)).
  assert (Hd : 0 <= drop_frame_rule (drop_frame r) m c < Double.round (fps r)).
  { unfold drop_frame_rule. destruct (drop_frame r); [|lia].
    destruct (negb (Z.rem m 10 =? 0) && (c <? 2)); lia. }
  rewrite to_uchar_small by lia.
  repeat split; lia.
Qed.

Lemma output_frame_in_range_witness :
  let localtime := fun t : Z =>
    mkTm 126 10 1 (Z.rem (Z.quot t 3600) 24) (Z.rem (Z.quot t 60) 60) (Z.rem t 60) in
  0 <= frame (fst (get_timecode_with_alsa_latency localtime Double.d24 false
                     (mkTimespec 1793491260 999999999) true (mkNtp 120 250 3)
                     (mkPcm true 4000 true 0) 125000))
    < 24.
Proof.
  cbv zeta.
  refine (proj1 (output_frame_in_range _ (mkRate Double.d24 LTC_TV_525_60 false "24")
                   (mkTimespec 1793491260 999999999) true (mkNtp 120 250 3)
                   (mkPcm true 4000 true 0) 125000 _ _)).
  - simpl. tauto.
  - vm_compute. discriminate.
Defined.

(** C9.  At 29.97 fps, drop-frame or not, neither the output timecode nor
    the display timecode ever carries frame 29: the clamp bound is
    30000 / 1001 = 29, so a derived frame of 29 or more becomes 28; the
    last 32386 microseconds of a second derive frame 29 and return 28. *)
Theorem frame_29_never_at_29_97 (localtime : Z -> tm) (df : bool)
    (ts : timespec) (use_ntp : bool) (s : ntp_state) (pcm : pcm_answer)
    (processing_offset_us ntp_offset : Z) :
  frame (fst (get_timecode_with_alsa_latency localtime Double.d29_97 df
                ts use_ntp s pcm processing_offset_us)) <> 29 /\
  frame (get_display_timecode localtime Double.d29_97 df ts ntp_offset) <> 29 /\
  (forall t m : Z, drop_frame_rule df m (clamped_frame Double.d29_97 t) <= 28) /\
  frame_rational Double.d29_97 = (30000, 1001) /\
  to_int (Z.quot 30000 1001) = 29 /\
  (forall f : Z, clamp_frame Double.d29_97 f = (if 29 <=? f then 28 else f)) /\
  derived_frame Double.d29_97 999999 = 29 /\
  clamped_frame Double.d29_97 999999 = 28.
Proof.
  assert (Hany : forall t m,
            -30 <= drop_frame_rule df m (clamped_frame Double.d29_97 t) <= 28 /\
            to_uchar (drop_frame_rule df m (clamped_frame Double.d29_97 t)) <> 29).
  { intros t m. destruct (clamped_frame_29_97 t) as (Hd & _ & _ & Hc).
    cbv zeta in Hd, Hc. rewrite Hc.
    set (d := Z.quot (Z.rem t MICROSECONDS_PER_SECOND) 33366) in *.
    assert (Hr : -30 <= (if 29 <=? d then 29 - 1 else d) <= 28)
      by (destruct (Z.leb_spec 29 d); lia).
    set (c := if 29 <=? d then 29 - 1 else d) in *.
    assert (Hx : -30 <= drop_frame_rule df m c <= 28).
    { unfold drop_frame_rule. destruct df; [|lia].
      destruct (negb (Z.rem m 10 =? 0) && (c <? 2)); lia. }
    split; [exact Hx|]. unfold to_uchar.
    pose proof (Z.mod_pos_bound (drop_frame_rule df m c) 256 ltac:(lia)).
    pose proof (Z.div_mod (drop_frame_rule df m c) 256 ltac:(lia)).
    lia. }
  split; [|split; [|split; [|split; [|split; [|split; [|split]]]]]].
  - unfold get_timecode_with_alsa_latency. cbn [fst].
    rewrite timecode_at_frame. apply Hany.
  - unfold get_display_timecode. rewrite timecode_at_frame. apply Hany.
  - intros t m. apply Hany.
  - reflexivity.
  - reflexivity.
  - intros f. unfold clamp_frame.
    change (frame_rational Double.d29_97) with (30000, 1001). cbv beta iota.
    change (to_int (Z.quot 30000 1001)) with 29.
    change (to_int (29 - 1)) with 28. reflexivity.
  - reflexivity.
  - reflexivity.
Qed.

(** ** Claims on the sync thread *)

Lemma sync_wait_shape (running : nat -> bool) (left reads : nat) :
  sync_wait running reads left
  = concat (repeat [Ev_check true; Ev_sleep 1] (reads_set running reads left))
    ++ (if (reads_set running reads left <? left)%nat then [Ev_check false] else []).
Proof.
  revert reads. induction left as [|left IH]; intros reads; [reflexivity|].
  cbn [sync_wait reads_set]. destruct (running reads).
  - cbn [repeat concat app]. rewrite IH.
    change (S (reads_set running (S reads) left) <? S left)%nat
      with (reads_set running (S reads) left <? left)%nat.
    reflexivity.
  - reflexivity.
Qed.

Lemma reads_set_le (running : nat -> bool) (left reads : nat) :
  (reads_set running reads left <= left)%nat.
Proof.
  revert reads. induction left as [|left IH]; intros reads; cbn [reads_set]; [lia|].
  destruct (running reads); [|lia]. specialize (IH (S reads)). lia.
Qed.

Lemma sync_wait_sleeps (running : nat -> bool) (left reads : nat) (d : Z) :
  In (Ev_sleep d) (sync_wait running reads left) -> d = 1.
Proof.
  revert reads. induction left as [|left IH]; intros reads; cbn [sync_wait]; [intros []|].
  intros [H | H]; [discriminate H|].
  destruct (running reads); [|destruct H].
  destruct H as [H | H]; [now injection H | eauto].
Qed.

(** C8 (as stated, refuted).  With an interval of 60 s and the flag set,
    the thread calls [sleep(1)] between two reads of the flag: a sleep of
    a full second, not of less. *)
Lemma sync_wait_sleeps_full_second :
  ~ (forall d : Z,
       In (Ev_sleep d) (sync_cycle 60 (fun _ => true) 0) ->
       sleep_us d < MICROSECONDS_PER_SECOND).
Proof.
  intros H. specialize (H 1).
  assert (Hin : In (Ev_sleep 1) (sync_cycle 60 (fun _ => true) 0)).
  { vm_compute. right. right. left. reflexivity. }
  specialize (H Hin). vm_compute in H. discriminate H.
Qed.

(** C8 (amended).  The wait is a run of pairs: a read of the flag that
    finds it set, then [sleep(1)]; it ends with the first read that finds
    the flag cleared, or after [ntp_sync_interval] pairs.  So every sleep
    between two reads of the flag lasts one second, exactly and never
    longer; and when the interval is more than one second, no single
    sleep lasts the whole interval. *)
Theorem sync_wait_polls_every_second (running : nat -> bool) (reads left : nat) :
  let k := reads_set running reads left in
  sync_wait running reads left
  = concat (repeat [Ev_check true; Ev_sleep 1] k)
    ++ (if (k <? left)%nat then [Ev_check false] else []) /\
  (k <= left)%nat /\
  (forall d : Z,
     In (Ev_sleep d) (sync_wait running reads left) ->
     sleep_us d = MICROSECONDS_PER_SECOND) /\
  (forall d : Z,
     In (Ev_sleep d) (sync_wait running reads left) ->
     (1 < left)%nat ->
     sleep_us d < sleep_us (Z.of_nat left)).
Proof.
  cbv zeta. split; [apply sync_wait_shape|]. split; [apply reads_set_le|].
  split.
  - intros d Hin. rewrite (sync_wait_sleeps running left reads d Hin). reflexivity.
  - intros d Hin Hleft. rewrite (sync_wait_sleeps running left reads d Hin).
    unfold sleep_us, MICROSECONDS_PER_SECOND. lia.
Qed.

(** * Further properties of the code *)

(** ** NTP timestamps *)

Lemma to_uint32_small (x : Z) : 0 <= x < 4294967296 -> to_uint32 x = x.
Proof. intros H. unfold to_uint32. apply Z.mod_small. exact H. Qed.

Lemma to_uint64_small (x : Z) : 0 <= x < 18446744073709551616 -> to_uint64 x = x.
Proof. intros H. unfold to_uint64. apply Z.mod_small. exact H. Qed.

Lemma ntp_to_unix_us_eq (ntp_sec ntp_frac : Z) :
  0 <= ntp_sec < 4294967296 -> 0 <= ntp_frac < 4294967296 ->
  ntp_to_unix_us ntp_sec ntp_frac
  = (ntp_sec - NTP_TIMESTAMP_DELTA) * 1000000 + ntp_frac * 1000000 / 4294967296
  /\ 0 <= ntp_frac * 1000000 / 4294967296 <= 999999.
Proof.
  intros Hs Hf. unfold ntp_to_unix_us, NTP_TIMESTAMP_DELTA, MICROSECONDS_PER_SECOND.
  assert (Hus : 0 <= ntp_frac * 1000000 / 4294967296 <= 999999).
  { split.
    - apply Z.div_pos; lia.
    - enough (ntp_frac * 1000000 / 4294967296 < 1000000) by lia.
      apply Z.div_lt_upper_bound; lia. }
  rewrite (wrap64_small (ntp_sec - 2208988800)) by (unfold INT64_MIN, INT64_MAX; lia).
  rewrite (wrap64_small (ntp_frac * 1000000)) by (unfold INT64_MIN, INT64_MAX; lia).
  rewrite Z.shiftr_div_pow2 by lia. change (2 ^ 32) with 4294967296.
  rewrite (wrap64_small ((ntp_sec - 2208988800) * 1000000))
    by (unfold INT64_MIN, INT64_MAX; lia).
  rewrite wrap64_small by (unfold INT64_MIN, INT64_MAX; lia).
  split; [reflexivity | exact Hus].
Qed.

(** X1.  The microseconds that come from the fraction stay below one
    second: the result lies in the second that [ntp_sec] names, counted
    from 1970. *)
Theorem ntp_to_unix_us_within_second (ntp_sec ntp_frac : Z) :
  0 <= ntp_sec < 4294967296 -> 0 <= ntp_frac < 4294967296 ->
  (ntp_sec - NTP_TIMESTAMP_DELTA) * MICROSECONDS_PER_SECOND
    <= ntp_to_unix_us ntp_sec ntp_frac
    < (ntp_sec - NTP_TIMESTAMP_DELTA + 1) * MICROSECONDS_PER_SECOND.
Proof.
  intros Hs Hf. destruct (ntp_to_unix_us_eq ntp_sec ntp_frac Hs Hf) as [-> Hus].
  unfold MICROSECONDS_PER_SECOND. lia.
Qed.

Lemma ntp_to_unix_us_within_second_witness :
  0 <= ntp_to_unix_us NTP_TIMESTAMP_DELTA 4294967295 < 1000000.
Proof.
  apply (ntp_to_unix_us_within_second NTP_TIMESTAMP_DELTA 4294967295);
    vm_compute; split; congruence.
Defined.

(** X2.  The conversion keeps the order of timestamps: a later second
    gives a strictly later time, and within a second a larger fraction
    never gives an earlier one. *)
Theorem ntp_to_unix_us_monotone (sec1 frac1 sec2 frac2 : Z) :
  0 <= sec1 < 4294967296 -> 0 <= frac1 < 4294967296 ->
  0 <= sec2 < 4294967296 -> 0 <= frac2 < 4294967296 ->
  (sec1 < sec2 -> ntp_to_unix_us sec1 frac1 < ntp_to_unix_us sec2 frac2) /\
  (sec1 = sec2 -> frac1 <= frac2 ->
   ntp_to_unix_us sec1 frac1 <= ntp_to_unix_us sec2 frac2).
Proof.
  intros Hs1 Hf1 Hs2 Hf2.
  destruct (ntp_to_unix_us_eq sec1 frac1 Hs1 Hf1) as [-> Hu1].
  destruct (ntp_to_unix_us_eq sec2 frac2 Hs2 Hf2) as [-> Hu2].
  split.
  - intros Hlt. lia.
  - intros -> Hle.
    assert (frac1 * 1000000 / 4294967296 <= frac2 * 1000000 / 4294967296)
      by (apply Z.div_le_mono; lia).
    lia.
Qed.

Lemma ntp_to_unix_us_monotone_witness :
  ntp_to_unix_us 3900000000 4294967295 < ntp_to_unix_us 3900000001 0.
Proof.
  refine (proj1 (ntp_to_unix_us_monotone 3900000000 4294967295 3900000001 0 _ _ _ _) _);
    lia.
Defined.

Lemma clock_us_eq (ts : timespec) :
  - 1099511627776 <= tv_sec ts <= 1099511627776 -> 0 <= tv_nsec ts < 1000000000 ->
  clock_us ts = tv_sec ts * 1000000 + tv_nsec ts / 1000
  /\ 0 <= tv_nsec ts / 1000 <= 999999.
Proof.
  intros Hs Hn. unfold clock_us, MICROSECONDS_PER_SECOND, NANOSECONDS_PER_MICROSECOND.
  rewrite Z.quot_div_nonneg by lia.
  assert (Hus : 0 <= tv_nsec ts / 1000 <= 999999).
  { split.
    - apply Z.div_pos; lia.
    - enough (tv_nsec ts / 1000 < 1000000) by lia.
      apply Z.div_lt_upper_bound; lia. }
  rewrite (wrap64_small (tv_sec ts * 1000000)) by (unfold INT64_MIN, INT64_MAX; lia).
  rewrite wrap64_small by (unfold INT64_MIN, INT64_MAX; lia).
  split; [reflexivity | exact Hus].
Qed.

(** X3.  Encoding a clock reading with [get_system_time_ntp] and decoding
    it with [ntp_to_unix_us] gives the reading in microseconds back, or
    one microsecond less, and never more: the second is kept, and the
    32-bit fraction can lose the last microsecond. *)
Theorem ntp_timestamp_round_trip (ts : timespec) :
  0 <= tv_sec ts + NTP_TIMESTAMP_DELTA < 4294967296 ->
  0 <= tv_nsec ts < 1000000000 ->
  let '(sec, frac) := get_system_time_ntp ts in
  clock_us ts - 1 <= ntp_to_unix_us sec frac <= clock_us ts.
Proof.
  intros Hs Hn. unfold get_system_time_ntp.
  unfold NTP_TIMESTAMP_DELTA in *.
  rewrite (wrap64_small (tv_sec ts + 2208988800)) by (unfold INT64_MIN, INT64_MAX; lia).
  rewrite (to_uint32_small (tv_sec ts + 2208988800)) by lia.
  rewrite (to_uint64_small (tv_nsec ts)) by lia.
  rewrite Z.shiftl_mul_pow2 by lia. change (2 ^ 32) with 4294967296.
  rewrite (to_uint64_small (tv_nsec ts * 4294967296)) by lia.
  set (frac := tv_nsec ts * 4294967296 / 1000000000).
  assert (Hfrac : frac * 1000000000 <= tv_nsec ts * 4294967296
                  < (frac + 1) * 1000000000).
  { subst frac.
    pose proof (Z.mul_div_le (tv_nsec ts * 4294967296) 1000000000 ltac:(lia)).
    pose proof (Z.mul_succ_div_gt (tv_nsec ts * 4294967296) 1000000000 ltac:(lia)).
    lia. }
  assert (Hf0 : 0 <= frac < 4294967296).
  { split; [subst frac; apply Z.div_pos; lia | lia]. }
  rewrite (to_uint32_small frac) by exact Hf0.
  destruct (ntp_to_unix_us_eq (tv_sec ts + 2208988800) frac ltac:(lia) Hf0) as [-> _].
  destruct (clock_us_eq ts ltac:(lia) Hn) as [-> _].
  unfold NTP_TIMESTAMP_DELTA.
  set (us := frac * 1000000 / 4294967296).
  assert (Hus : us * 4294967296 <= frac * 1000000 < (us + 1) * 4294967296).
  { subst us.
    pose proof (Z.mul_div_le (frac * 1000000) 4294967296 ltac:(lia)).
    pose proof (Z.mul_succ_div_gt (frac * 1000000) 4294967296 ltac:(lia)).
    lia. }
  set (k := tv_nsec ts / 1000).
  assert (Hk : k * 1000 <= tv_nsec ts < (k + 1) * 1000).
  { subst k.
    pose proof (Z.mul_div_le (tv_nsec ts) 1000 ltac:(lia)).
    pose proof (Z.mul_succ_div_gt (tv_nsec ts) 1000 ltac:(lia)).
    lia. }
  lia.
Qed.

Lemma ntp_timestamp_round_trip_witness :
  let '(sec, frac) := get_system_time_ntp (mkTimespec 1793491260 1000) in
  clock_us (mkTimespec 1793491260 1000) - 1 <= ntp_to_unix_us sec frac
    <= clock_us (mkTimespec 1793491260 1000).
Proof.
  apply (ntp_timestamp_round_trip (mkTimespec 1793491260 1000));
    vm_compute; split; congruence.
Defined.

(** The microsecond is really lost at times: 1000 ns come back as 0 us. *)
Example ntp_timestamp_loses_a_microsecond :
  let '(sec, frac) := get_system_time_ntp (mkTimespec 1793491260 1000) in
  ntp_to_unix_us sec frac = clock_us (mkTimespec 1793491260 1000) - 1.
Proof. vm_compute. reflexivity. Qed.

(** X4.  A reply is never taken for a failed query: with the client's
    clock within 2^40 seconds of 1970, the value returned for a reply is
    the exact difference of the server's transmit time and the client's
    receive time, and it is not the error value [INT64_MAX]. *)
Theorem query_result_of_reply (tx_ts_sec tx_ts_frac : Z) (client_recv_ts : timespec) :
  0 <= tx_ts_sec < 4294967296 -> 0 <= tx_ts_frac < 4294967296 ->
  - 1099511627776 <= tv_sec client_recv_ts <= 1099511627776 ->
  0 <= tv_nsec client_recv_ts < 1000000000 ->
  query_result (Reply tx_ts_sec tx_ts_frac client_recv_ts)
  = ntp_to_unix_us tx_ts_sec tx_ts_frac - clock_us client_recv_ts
  /\ query_result (Reply tx_ts_sec tx_ts_frac client_recv_ts) <> INT64_MAX.
Proof.
  intros Hs Hf Hcs Hcn. unfold query_result. fold (clock_us client_recv_ts).
  destruct (ntp_to_unix_us_eq tx_ts_sec tx_ts_frac Hs Hf) as [-> Hu].
  destruct (clock_us_eq client_recv_ts Hcs Hcn) as [-> Hc].
  unfold NTP_TIMESTAMP_DELTA.
  rewrite wrap64_small by (unfold INT64_MIN, INT64_MAX; lia).
  split; [reflexivity|]. unfold INT64_MAX. lia.
Qed.

Lemma query_result_of_reply_witness :
  query_result (Reply 4002480060 2147483648 (mkTimespec 1793491260 499700000))
  <> INT64_MAX.
Proof.
  refine (proj2 (query_result_of_reply 4002480060 2147483648
                   (mkTimespec 1793491260 499700000) _ _ _ _));
    vm_compute; split; congruence.
Defined.

(** ** The outcome of a sync cycle *)

(** X5.  [query_ntp_server] returns 0 or -1, and 0 exactly when the
    socket was made and configured, the host resolved and at least one
    sample passed the filter. *)
Theorem query_ntp_server_return (cfg : ntp_config) (net : ntp_net) (s : ntp_state) :
  (fst (query_ntp_server cfg net s) = 0 \/ fst (query_ntp_server cfg net s) = -1) /\
  (fst (query_ntp_server cfg net s) = 0 <->
   socket_ok net = true /\ sockopt_ok net = true /\ resolve_ok net = true /\
   survivors net <> []).
Proof.
  unfold query_ntp_server.
  destruct (socket_ok net); cbn [negb];
    [|split; [right; reflexivity | split; [discriminate | intros (H & _); discriminate]]].
  destruct (sockopt_ok net); cbn [negb];
    [|split; [right; reflexivity | split; [discriminate | intros (_ & H & _); discriminate]]].
  destruct (resolve_ok net); cbn [negb];
    [|split; [right; reflexivity
             | split; [discriminate | intros (_ & _ & H & _); discriminate]]].
  rewrite query_loop_successful.
  destruct (survivors net) as [|o sv] eqn:Hsv.
  - cbn. split; [right; reflexivity|].
    split; [discriminate | intros (_ & _ & _ & H); congruence].
  - replace (Z.of_nat (List.length (o :: sv)) =? 0) with false
      by (symmetry; apply Z.eqb_neq; cbn [List.length]; lia).
    assert (Hne : survivors net <> []) by (rewrite Hsv; discriminate).
    destruct (select_offset_props net Hne) as (Hlt & _).
    unfold labs. apply Z.ltb_lt in Hlt. rewrite Hlt. cbn [fst].
    split; [left; reflexivity|].
    split; [intros _; repeat split; discriminate | reflexivity].
Qed.

(** X6.  A sync never moves the offset in use: whatever the outcome,
    [ntp_offset_us] is what it was, so the timecode does not jump; and a
    call that returns -1, for whatever reason, leaves target and step
    alone as well. *)
Theorem sync_never_moves_offset (cfg : ntp_config) (net : ntp_net) (s : ntp_state) :
  ntp_offset_us (snd (query_ntp_server cfg net s)) = ntp_offset_us s /\
  (fst (query_ntp_server cfg net s) = -1 -> snd (query_ntp_server cfg net s) = s).
Proof.
  destruct (query_ntp_server_cases cfg net s) as [-> | [_ ->]]; cbn [fst snd].
  - split; [reflexivity | intros _; reflexivity].
  - split; [apply publish_target_offset | discriminate].
Qed.

(** ** The selected offset *)

Lemma zsum_lower (l : list Z) (c : Z) :
  Forall (fun x => c <= x) l -> Z.of_nat (List.length l) * c <= zsum l.
Proof.
  induction 1 as [|x l Hx _ IH]; cbn [zsum fold_right List.length].
  - lia.
  - fold (zsum l). lia.
Qed.

Lemma zsum_upper (l : list Z) (c : Z) :
  Forall (fun x => x <= c) l -> zsum l <= Z.of_nat (List.length l) * c.
Proof.
  induction 1 as [|x l Hx _ IH]; cbn [zsum fold_right List.length].
  - lia.
  - fold (zsum l). lia.
Qed.

(** X7.  The published target is never larger in magnitude than any
    surviving sample, and it is one of the survivors or their truncated
    average. *)
Theorem target_magnitude_minimal (cfg : ntp_config) (net : ntp_net) (s s' : ntp_state) :
  query_ntp_server cfg net s = (0, s') ->
  Forall (fun o => Z.abs (ntp_target_offset_us s') <= Z.abs o) (survivors net) /\
  (In (ntp_target_offset_us s') (survivors net) \/
   ntp_target_offset_us s'
   = Z.quot (zsum (survivors net)) (Z.of_nat (List.length (survivors net)))).
Proof.
  intros Hq.
  destruct (query_ntp_server_cases cfg net s) as [Hf | [Hne Hs]].
  - rewrite Hf in Hq. discriminate.
  - rewrite Hs in Hq. injection Hq as <-. rewrite publish_target_target.
    destruct (select_offset_props net Hne) as (_ & Hin & Hmin).
    split; [exact Hmin | tauto].
Qed.

Lemma target_magnitude_minimal_witness :
  Forall (fun o => Z.abs 20 <= Z.abs o)
         (survivors (mkNet true true true [300; -200; 250; -350; 100])).
Proof.
  refine (proj1 (target_magnitude_minimal (mkCfg 30 Double.d25)
                   (mkNet true true true [300; -200; 250; -350; 100])
                   ntp_init (mkNtp 0 20 1) _)).
  vm_compute. reflexivity.
Defined.

(** X8.  When the surviving samples all have the same sign (none is
    negative, or none is positive), the published target is one of them,
    and of the least magnitude among them. *)
Theorem same_sign_target_is_a_sample (cfg : ntp_config) (net : ntp_net)
    (s s' : ntp_state) :
  query_ntp_server cfg net s = (0, s') ->
  Forall (fun o => 0 <= o) (survivors net) \/ Forall (fun o => o <= 0) (survivors net) ->
  In (ntp_target_offset_us s') (survivors net) /\
  Forall (fun o => Z.abs (ntp_target_offset_us s') <= Z.abs o) (survivors net).
Proof.
  intros Hq Hsign.
  destruct (target_magnitude_minimal cfg net s s' Hq) as [Hmin Hin].
  split; [|exact Hmin].
  destruct Hin as [Hin | Havg]; [exact Hin|].
  destruct (query_ntp_server_cases cfg net s) as [Hf | [Hne _]];
    [rewrite Hf in Hq; discriminate|].
  set (sv := survivors net) in *. set (t := ntp_target_offset_us s') in *.
  set (n := Z.of_nat (List.length sv)) in *.
  assert (Hn : 0 < n) by (subst n; destruct sv; [congruence | cbn [List.length]; lia]).
  destruct (quot_trunc (zsum sv) n Hn) as (r & Hr & Hc). rewrite <- Havg in Hr.
  destruct (in_dec Z.eq_dec t sv) as [Hyes | Hno]; [exact Hyes | exfalso].
  rewrite Forall_forall in Hmin.
  destruct Hsign as [Hpos | Hneg].
  - assert (Hz : 0 <= zsum sv) by (pose proof (zsum_lower sv 0 Hpos); lia).
    assert (Ht : 0 <= t) by (destruct Hc; nia).
    rewrite Forall_forall in Hpos.
    assert (Hall : Forall (fun x => t + 1 <= x) sv).
    { apply Forall_forall. intros x Hx.
      pose proof (Hmin x Hx). pose proof (Hpos x Hx).
      assert (x <> t) by (intros ->; contradiction).
      lia. }
    pose proof (zsum_lower sv (t + 1) Hall) as Hlow. fold n in Hlow.
    destruct Hc; nia.
  - assert (Hz : zsum sv <= 0) by (pose proof (zsum_upper sv 0 Hneg); lia).
    assert (Ht : t <= 0) by (destruct Hc; nia).
    rewrite Forall_forall in Hneg.
    assert (Hall : Forall (fun x => x <= t - 1) sv).
    { apply Forall_forall. intros x Hx.
      pose proof (Hmin x Hx). pose proof (Hneg x Hx).
      assert (x <> t) by (intros ->; contradiction).
      lia. }
    pose proof (zsum_upper sv (t - 1) Hall) as Hup. fold n in Hup.
    destruct Hc; nia.
Qed.

Lemma same_sign_target_is_a_sample_witness :
  In 120 (survivors (mkNet true true true [5000; 300; 9999999; 450; 120])).
Proof.
  refine (proj1 (same_sign_target_is_a_sample (mkCfg 30 Double.d25)
                   (mkNet true true true [5000; 300; 9999999; 450; 120])
                   ntp_init (mkNtp 0 120 1) _ _)).
  - vm_compute. reflexivity.
  - left. vm_compute. repeat constructor; discriminate.
Defined.

(** ** The slew between two syncs *)

Lemma slew_step_aimed (s : ntp_state) : ntp_inv s -> ntp_aimed s -> ntp_aimed (slew_step s).
Proof.
  destruct s as [off tgt stp]. unfold ntp_inv, ntp_aimed, slew_step.
  cbn [ntp_offset_us ntp_target_offset_us ntp_adjustment_step_us].
  rewrite threshold_value. intros (Ho & Ht & Hs & Hp) Ha.
  destruct (Z.eqb_spec off tgt); destruct (Z.eqb_spec stp 0); cbn [negb andb];
    cbn [ntp_offset_us ntp_target_offset_us ntp_adjustment_step_us]; try lia.
  rewrite wrap64_small by (unfold INT64_MIN, INT64_MAX; lia).
  destruct (Z.ltb_spec 0 stp); destruct (Z.leb_spec tgt (off + stp));
    destruct (Z.ltb_spec stp 0); destruct (Z.leb_spec (off + stp) tgt);
    cbn [andb orb ntp_offset_us ntp_target_offset_us ntp_adjustment_step_us]; lia.
Qed.

Lemma publish_target_aimed (cfg : ntp_config) (m : Z) (s : ntp_state) :
  valid_config cfg -> Z.abs m < NTP_ERROR_THRESHOLD -> ntp_inv s ->
  ntp_aimed (publish_target cfg m s).
Proof.
  intros Hv Hm (Ho & _).
  rewrite publish_target_eq by assumption.
  pose proof (slew_step_for_props (m - ntp_offset_us s) (adjust_frames cfg)
                (adjust_frames_pos cfg Hv)) as (Habs & Hnz & Hsgn & _).
  unfold ntp_aimed. cbn [ntp_offset_us ntp_target_offset_us ntp_adjustment_step_us].
  destruct (Z.eq_dec (slew_step_for (m - ntp_offset_us s) (adjust_frames cfg)) 0)
    as [Hz | Hz]; [|auto].
  rewrite Hz in *. lia.
Qed.

Lemma ntp_run_aimed_inv (cfg : ntp_config) (evs : list ntp_event) :
  valid_config cfg -> ntp_inv (ntp_run cfg evs) /\ ntp_aimed (ntp_run cfg evs).
Proof.
  intros Hv. unfold ntp_run.
  assert (H0 : ntp_inv ntp_init /\ ntp_aimed ntp_init).
  { split; [|reflexivity].
    unfold ntp_inv, ntp_init. rewrite threshold_value. simpl. repeat split; lia. }
  revert H0. generalize ntp_init.
  induction evs as [|e evs IH]; intros s Hs; simpl; [assumption|].
  apply IH. destruct Hs as [Hi Ha]. destruct e as [|net]; simpl.
  - split; [now apply slew_step_inv | now apply slew_step_aimed].
  - split; [now apply query_ntp_server_inv|].
    destruct (query_ntp_server_cases cfg net s) as [-> | [Hne ->]]; [assumption|].
    apply publish_target_aimed; try assumption.
    apply (select_offset_props net Hne).
Qed.

(** X9.  At every point of a run the step points from the offset in use
    to the target: it has the sign of target minus offset, so it is zero
    exactly when the offset has arrived. *)
Theorem step_points_to_target (cfg : ntp_config) (evs : list ntp_event) :
  valid_config cfg ->
  let s := ntp_run cfg evs in
  Z.sgn (ntp_adjustment_step_us s) = Z.sgn (ntp_target_offset_us s - ntp_offset_us s) /\
  (ntp_adjustment_step_us s = 0 <-> ntp_offset_us s = ntp_target_offset_us s).
Proof.
  intros Hv s. destruct (ntp_run_aimed_inv cfg evs Hv) as [_ Ha].
  fold s in Ha. unfold ntp_aimed in Ha. split; [exact Ha | lia].
Qed.

Lemma step_points_to_target_witness :
  Z.sgn (ntp_adjustment_step_us
           (ntp_run (mkCfg 30 Double.d29_97)
              [Ev_sync (mkNet true true true [-5000; -300; 9999999; 450; -120]);
               Ev_frame; Ev_frame;
               Ev_sync (mkNet true true true [INT64_MAX; 7000; 6500; 6800; 6900])]))
  = 1.
Proof.
  etransitivity.
  - refine (proj1 (step_points_to_target (mkCfg 30 Double.d29_97)
              [Ev_sync (mkNet true true true [-5000; -300; 9999999; 450; -120]);
               Ev_frame; Ev_frame;
               Ev_sync (mkNet true true true [INT64_MAX; 7000; 6500; 6800; 6900])] _)).
    split; [vm_compute; split; discriminate | simpl; auto].
  - vm_compute. reflexivity.
Defined.

Lemma slew_iter_closed (s : ntp_state) (k : nat) :
  ntp_inv s -> ntp_aimed s ->
  Nat.iter k slew_step s = slew_after s (Z.of_nat k).
Proof.
  destruct s as [off tgt stp]. unfold ntp_inv, ntp_aimed, slew_after.
  cbn [ntp_offset_us ntp_target_offset_us ntp_adjustment_step_us].
  rewrite threshold_value. intros (Ho & Ht & Hs & Hp) Ha.
  induction k as [|k IH].
  - cbn [Nat.iter nat_rect Z.of_nat]. rewrite Z.mul_0_r.
    destruct (Z.ltb_spec 0 (Z.abs (tgt - off))) as [Hd | Hd].
    + f_equal. lia.
    + f_equal; lia.
  - rewrite Nat.iter_succ, IH. rewrite Nat2Z.inj_succ.
    set (n := Z.of_nat k) in *. assert (Hn : 0 <= n) by (subst n; lia).
    destruct (Z.ltb_spec (Z.abs stp * n) (Z.abs (tgt - off))) as [Hlt | Hge].
    + unfold slew_step.
      cbn [ntp_offset_us ntp_target_offset_us ntp_adjustment_step_us].
      assert (Hb : Z.abs (n * stp) < Z.abs (tgt - off))
        by (rewrite Z.abs_mul, (Z.abs_eq n) by lia; lia).
      destruct (Z.eqb_spec (off + n * stp) tgt) as [He | He]; [lia|].
      destruct (Z.eqb_spec stp 0) as [Hz | Hz]; [lia|]. cbn [negb andb].
      rewrite wrap64_small by (unfold INT64_MIN, INT64_MAX; lia).
      destruct (Z.ltb_spec (Z.abs stp * Z.succ n) (Z.abs (tgt - off))) as [Hlt' | Hge'];
        destruct (Z.ltb_spec 0 stp); destruct (Z.leb_spec tgt (off + n * stp + stp));
        destruct (Z.ltb_spec stp 0); destruct (Z.leb_spec (off + n * stp + stp) tgt);
        cbn [andb orb]; try (f_equal; lia); exfalso; nia.
    + destruct (Z.ltb_spec (Z.abs stp * Z.succ n) (Z.abs (tgt - off))) as [Hlt' | Hge'];
        [exfalso; nia|].
      unfold slew_step.
      cbn [ntp_offset_us ntp_target_offset_us ntp_adjustment_step_us].
      rewrite Z.eqb_refl. reflexivity.
Qed.

(** X10.  Between two syncs the slew runs as a straight line that stops at
    the target: after [k] frames the offset is [k] steps further, until
    [k] steps reach or pass the target; from then on the offset is the
    target and the step is zero.  So the offset never passes the target,
    and it has arrived after as many frames as there were microseconds to
    go, at the latest. *)
Theorem slew_closed_form (cfg : ntp_config) (evs : list ntp_event) (k : nat) :
  valid_config cfg ->
  let s := ntp_run cfg evs in
  Nat.iter k slew_step s = slew_after s (Z.of_nat k) /\
  Z.abs (ntp_offset_us (Nat.iter k slew_step s) - ntp_offset_us s)
    <= slew_distance s /\
  slew_distance (Nat.iter k slew_step s) <= slew_distance s /\
  (slew_distance s <= Z.of_nat k ->
   Nat.iter k slew_step s = mkNtp (ntp_target_offset_us s) (ntp_target_offset_us s) 0).
Proof.
  intros Hv s. destruct (ntp_run_aimed_inv cfg evs Hv) as [Hi Ha]. fold s in Hi, Ha.
  rewrite (slew_iter_closed s k Hi Ha).
  destruct s as [off tgt stp]. unfold ntp_aimed, slew_after, slew_distance in *.
  cbn [ntp_offset_us ntp_target_offset_us ntp_adjustment_step_us] in *.
  split; [reflexivity|].
  set (n := Z.of_nat k). assert (Hn : 0 <= n) by (subst n; lia).
  destruct (Z.ltb_spec (Z.abs stp * n) (Z.abs (tgt - off))) as [Hlt | Hge];
    cbn [ntp_offset_us ntp_target_offset_us ntp_adjustment_step_us].
  - assert (Hb : Z.abs (n * stp) < Z.abs (tgt - off))
      by (rewrite Z.abs_mul, (Z.abs_eq n) by lia; lia).
    assert (Hsg : Z.sgn (n * stp) = Z.sgn (tgt - off) \/ n * stp = 0).
    { destruct (Z.eq_dec n 0) as [-> | Hn0]; [right; lia|]. left.
      rewrite Z.sgn_mul, (Z.sgn_pos n) by lia. lia. }
    repeat split; try lia.
    intros Hk. exfalso.
    assert (1 <= Z.abs stp) by lia. nia.
  - repeat split; lia.
Qed.

Lemma slew_closed_form_witness :
  Nat.iter 400 slew_step
    (ntp_run (mkCfg 30 Double.d25)
       [Ev_sync (mkNet true true true [5000; -300; 9999999; 450; 120]); Ev_frame])
  = mkNtp 120 120 0.
Proof.
  refine (proj2 (proj2 (proj2 (slew_closed_form (mkCfg 30 Double.d25)
            [Ev_sync (mkNet true true true [5000; -300; 9999999; 450; 120]); Ev_frame]
            400 _))) _).
  - split; [vm_compute; split; discriminate | simpl; auto].
  - vm_compute. discriminate.
Defined.

Lemma slew_step_for_speed (d A : Z) :
  0 < A ->
  Z.abs d <= Z.abs (slew_step_for d A) * (2 * A) /\
  (A <= Z.abs d -> Z.abs (slew_step_for d A) * A <= Z.abs d).
Proof.
  intros HA. unfold slew_step_for.
  destruct (quot_trunc d A HA) as (r & Hq & Hr).
  set (q := Z.quot d A) in *.
  destruct (Z.eqb_spec d 0) as [Hd0 | Hd0];
    destruct (Z.eqb_spec q 0) as [Hq0 | Hq0];
    destruct (Z.ltb_spec 0 d) as [Hpos | Hneg]; cbn [negb andb];
    split; intros; destruct Hr as [[? ?] | [? ?]]; try lia; try nia.
Qed.

Lemma ntp_run_snoc (cfg : ntp_config) (evs : list ntp_event) (e : ntp_event) :
  ntp_run cfg (evs ++ [e]) = ntp_apply cfg (ntp_run cfg evs) e.
Proof. unfold ntp_run. rewrite fold_left_app. reflexivity. Qed.

(** X11.  How long a slew takes.  After a successful sync the offset is
    at the target within twice the frame count of the slew period
    ([2 * adjust_frames] frames), whatever the difference; and when the
    difference is at least the frame count in microseconds, it is not
    there before the slew period is over. *)
Theorem slew_duration (cfg : ntp_config) (evs : list ntp_event)
    (net : ntp_net) (s' : ntp_state) (k : nat) :
  valid_config cfg ->
  query_ntp_server cfg net (ntp_run cfg evs) = (0, s') ->
  (2 * adjust_frames cfg <= Z.of_nat k ->
   Nat.iter k slew_step s'
   = mkNtp (ntp_target_offset_us s') (ntp_target_offset_us s') 0) /\
  (adjust_frames cfg <= slew_distance s' -> Z.of_nat k < adjust_frames cfg ->
   ntp_offset_us (Nat.iter k slew_step s') <> ntp_target_offset_us s').
Proof.
  intros Hv Hq.
  assert (Hrun : s' = ntp_run cfg (evs ++ [Ev_sync net])).
  { rewrite ntp_run_snoc. cbn [ntp_apply]. now rewrite Hq. }
  destruct (ntp_run_aimed_inv cfg (evs ++ [Ev_sync net]) Hv) as [Hi Ha].
  rewrite <- Hrun in Hi, Ha.
  rewrite (slew_iter_closed s' k Hi Ha).
  pose proof (ntp_run_inv cfg evs Hv) as Hi0.
  destruct (query_ntp_server_success cfg net _ s' Hv Hi0 Hq) as (m & Hm & Hs').
  pose proof (adjust_frames_pos cfg Hv) as HA.
  destruct (slew_step_for_speed (m - ntp_offset_us (ntp_run cfg evs))
              (adjust_frames cfg) HA) as [Hfast Hslow].
  rewrite Hs'. unfold slew_after, slew_distance.
  cbn [ntp_offset_us ntp_target_offset_us ntp_adjustment_step_us].
  set (d := m - ntp_offset_us (ntp_run cfg evs)) in *.
  set (stp := slew_step_for d (adjust_frames cfg)) in *.
  set (n := Z.of_nat k). assert (Hn : 0 <= n) by (subst n; lia).
  split.
  - intros Hk.
    destruct (Z.ltb_spec (Z.abs stp * n) (Z.abs d)) as [Hlt | Hge]; [|reflexivity].
    exfalso. nia.
  - intros Hbig Hk.
    replace (Z.abs (ntp_offset_us (ntp_run cfg evs) - m)) with (Z.abs d) in Hbig
      by (subst d; lia).
    specialize (Hslow Hbig).
    destruct (Z.ltb_spec (Z.abs stp * n) (Z.abs d)) as [Hlt | Hge]; [|exfalso; nia].
    cbn [ntp_offset_us].
    assert (Hb : Z.abs (n * stp) < Z.abs d)
      by (rewrite Z.abs_mul, (Z.abs_eq n) by lia; lia).
    subst d. lia.
Qed.

Lemma slew_duration_witness :
  Nat.iter 1500 slew_step (mkNtp 0 250000 333) = mkNtp 250000 250000 0.
Proof.
  refine (proj1 (slew_duration (mkCfg 30 Double.d25) []
            (mkNet true true true [250000; 250000; 250000; 250000; 250000])
            (mkNtp 0 250000 333) 1500 _ _) _).
  - split; [vm_compute; split; discriminate | simpl; auto].
  - vm_compute. reflexivity.
  - vm_compute. discriminate.
Defined.

(** ** Frames within a second *)

Lemma frame_window_generic (f : Double.double) (u B t k : Z) :
  us_per_frame f = u -> frame_count f = B ->
  33333 <= u -> 1 <= B <= 30 ->
  (clamped_frame f t
   = (if B <=? Z.quot (Z.rem t MICROSECONDS_PER_SECOND) u then B - 1
      else Z.quot (Z.rem t MICROSECONDS_PER_SECOND) u)) ->
  0 <= t -> 0 <= k < B ->
  (clamped_frame f t = k <->
   k * u <= Z.rem t MICROSECONDS_PER_SECOND /\
   (Z.rem t MICROSECONDS_PER_SECOND < (k + 1) * u \/ k = B - 1)).
Proof.
  intros _ _ Hu HB Hc Ht Hk. rewrite Hc.
  destruct (frac_bounds t) as [_ Hr0]. specialize (Hr0 Ht).
  set (R := Z.rem t MICROSECONDS_PER_SECOND) in *.
  destruct (quot_trunc R u ltac:(lia)) as (r' & Hq & Hcase).
  set (d := Z.quot R u) in *.
  assert (Hr' : 0 <= r' < u).
  { destruct Hcase as [[_ H] | [H1 H2]]; [exact H|].
    assert (R = 0) by lia. assert (d = 0) by nia. lia. }
  destruct (Z.leb_spec B d); split; intros H'; nia.
Qed.

(** X12.  Which frame a moment of a second falls into.  For a supported
    rate and a time that is not negative, frame [k] below the frame count
    is returned (before the drop-frame block) exactly from [k] frame
    lengths into the second until [k + 1] frame lengths, and the last
    frame until the end of the second.  So frame 0 starts on the second,
    and every frame number below the frame count occurs. *)
Theorem frame_window (r : framerate_spec_t) (t k : Z) :
  In r supported_rates -> 0 <= t -> 0 <= k < frame_count (fps r) ->
  (clamped_frame (fps r) t = k <->
   k * us_per_frame (fps r) <= Z.rem t MICROSECONDS_PER_SECOND /\
   (Z.rem t MICROSECONDS_PER_SECOND < (k + 1) * us_per_frame (fps r)
    \/ k = frame_count (fps r) - 1)).
Proof.
  intros Hin Ht Hk.
  destruct (supported_fps r Hin) as [Hf | [Hf | [Hf | Hf]]]; rewrite Hf in *.
  - apply (frame_window_generic Double.d24 41666 24); try reflexivity; try lia.
    + apply (clamped_frame_24 t).
    + exact Hk.
  - apply (frame_window_generic Double.d25 40000 25); try reflexivity; try lia.
    + apply (clamped_frame_25 t).
    + exact Hk.
  - apply (frame_window_generic Double.d29_97 33366 29); try reflexivity; try lia.
    + apply (clamped_frame_29_97 t).
    + exact Hk.
  - apply (frame_window_generic Double.d30 33333 30); try reflexivity; try lia.
    + apply (clamped_frame_30 t).
    + exact Hk.
Qed.

Lemma frame_window_witness :
  clamped_frame Double.d25 1793491260480000 = 12.
Proof.
  refine (proj2 (frame_window (mkRate Double.d25 LTC_TV_625_50 false "25")
                   1793491260480000 12 _ _ _) _).
  - simpl. tauto.
  - lia.
  - vm_compute. split; congruence.
  - vm_compute. split; [congruence | left; reflexivity].
Defined.

(** Frame length and frame count of the six rates. *)
Example frame_lengths :
  map (fun r => (us_per_frame (fps r), frame_count (fps r))) supported_rates
  = [(41666, 24); (40000, 25); (33366, 29); (33333, 30); (33366, 29); (33333, 30)].
Proof. vm_compute. reflexivity. Qed.

Lemma clamped_frame_monotone (f : Double.double) (t1 t2 : Z) :
  f = Double.d24 \/ f = Double.d25 \/ f = Double.d29_97 \/ f = Double.d30 ->
  0 <= t1 <= t2 ->
  Z.quot t1 MICROSECONDS_PER_SECOND = Z.quot t2 MICROSECONDS_PER_SECOND ->
  clamped_frame f t1 <= clamped_frame f t2.
Proof.
  intros Hf Ht Hsame.
  assert (Hrem : 0 <= Z.rem t1 MICROSECONDS_PER_SECOND <= Z.rem t2 MICROSECONDS_PER_SECOND).
  { pose proof (Z.quot_rem' t1 MICROSECONDS_PER_SECOND) as H1.
    pose proof (Z.quot_rem' t2 MICROSECONDS_PER_SECOND) as H2.
    destruct (frac_bounds t1) as [_ H0]. rewrite Hsame in H1. lia. }
  assert (Hq : forall u, 0 < u ->
             Z.quot (Z.rem t1 MICROSECONDS_PER_SECOND) u
             <= Z.quot (Z.rem t2 MICROSECONDS_PER_SECOND) u).
  { intros u Hu. apply Z.quot_le_mono; lia. }
  destruct Hf as [-> | [-> | [-> | ->]]].
  - destruct (clamped_frame_24 t1) as (_ & _ & _ & ->).
    destruct (clamped_frame_24 t2) as (_ & _ & _ & ->).
    specialize (Hq 41666 ltac:(lia)).
    destruct (Z.leb_spec 24 (Z.quot (Z.rem t1 MICROSECONDS_PER_SECOND) 41666));
      destruct (Z.leb_spec 24 (Z.quot (Z.rem t2 MICROSECONDS_PER_SECOND) 41666)); lia.
  - destruct (clamped_frame_25 t1) as (_ & _ & _ & ->).
    destruct (clamped_frame_25 t2) as (_ & _ & _ & ->).
    specialize (Hq 40000 ltac:(lia)).
    destruct (Z.leb_spec 25 (Z.quot (Z.rem t1 MICROSECONDS_PER_SECOND) 40000));
      destruct (Z.leb_spec 25 (Z.quot (Z.rem t2 MICROSECONDS_PER_SECOND) 40000)); lia.
  - destruct (clamped_frame_29_97 t1) as (_ & _ & _ & ->).
    destruct (clamped_frame_29_97 t2) as (_ & _ & _ & ->).
    specialize (Hq 33366 ltac:(lia)).
    destruct (Z.leb_spec 29 (Z.quot (Z.rem t1 MICROSECONDS_PER_SECOND) 33366));
      destruct (Z.leb_spec 29 (Z.quot (Z.rem t2 MICROSECONDS_PER_SECOND) 33366)); lia.
  - destruct (clamped_frame_30 t1) as (_ & _ & _ & ->).
    destruct (clamped_frame_30 t2) as (_ & _ & _ & ->).
    specialize (Hq 33333 ltac:(lia)).
    destruct (Z.leb_spec 30 (Z.quot (Z.rem t1 MICROSECONDS_PER_SECOND) 33333));
      destruct (Z.leb_spec 30 (Z.quot (Z.rem t2 MICROSECONDS_PER_SECOND) 33333)); lia.
Qed.

Lemma timecode_at_monotone (localtime : Z -> tm) (f : Double.double) (df : bool)
    (t1 t2 : Z) :
  f = Double.d24 \/ f = Double.d25 \/ f = Double.d29_97 \/ f = Double.d30 ->
  0 <= t1 <= t2 ->
  Z.quot t1 MICROSECONDS_PER_SECOND = Z.quot t2 MICROSECONDS_PER_SECOND ->
  frame (timecode_at localtime f df t1) <= frame (timecode_at localtime f df t2).
Proof.
  intros Hf Ht Hsame.
  pose proof (clamped_frame_monotone f t1 t2 Hf Ht Hsame) as Hmono.
  destruct (clamped_frame_range f t1 Hf) as [Hr1 Hn1].
  destruct (clamped_frame_range f t2 Hf) as [Hr2 Hn2].
  specialize (Hn1 ltac:(lia)). specialize (Hn2 ltac:(lia)).
  pose proof (round_supported f Hf) as Hround.
  rewrite !timecode_at_frame.
  assert (Hm : mins (timecode_at localtime f df t1) = mins (timecode_at localtime f df t2)).
  { unfold timecode_at. cbn [mins]. now rewrite Hsame. }
  rewrite Hm. set (m := mins (timecode_at localtime f df t2)).
  set (c1 := clamped_frame f t1) in *. set (c2 := clamped_frame f t2) in *.
  assert (H1 : 0 <= drop_frame_rule df m c1 <= drop_frame_rule df m c2 /\
               drop_frame_rule df m c2 <= 30).
  { unfold drop_frame_rule. destruct df; [|lia].
    destruct (negb (Z.rem m 10 =? 0)); cbn [andb]; [|lia].
    destruct (Z.ltb_spec c1 2); destruct (Z.ltb_spec c2 2); lia. }
  rewrite !to_uchar_small by lia. lia.
Qed.

(** X13.  Within one second the frame never goes back: for a supported
    rate, of two adjusted times that are not negative and lie in the same
    second, the later one gets a frame that is not smaller, in the output
    timecode and in the display timecode. *)
Theorem frame_monotone_within_second (localtime : Z -> tm) (r : framerate_spec_t)
    (ts1 ts2 : timespec) (use_ntp : bool) (s : ntp_state) (pcm1 pcm2 : pcm_answer)
    (poff1 poff2 ntp_offset : Z) :
  In r supported_rates ->
  let a1 := adjusted_time_us ts1 use_ntp s pcm1 poff1 in
  let a2 := adjusted_time_us ts2 use_ntp s pcm2 poff2 in
  let d1 := wrap64 (clock_us ts1 + ntp_offset) in
  let d2 := wrap64 (clock_us ts2 + ntp_offset) in
  (0 <= a1 <= a2 ->
   Z.quot a1 MICROSECONDS_PER_SECOND = Z.quot a2 MICROSECONDS_PER_SECOND ->
   frame (fst (get_timecode_with_alsa_latency localtime (fps r) (drop_frame r)
                 ts1 use_ntp s pcm1 poff1))
   <= frame (fst (get_timecode_with_alsa_latency localtime (fps r) (drop_frame r)
                    ts2 use_ntp s pcm2 poff2))) /\
  (0 <= d1 <= d2 ->
   Z.quot d1 MICROSECONDS_PER_SECOND = Z.quot d2 MICROSECONDS_PER_SECOND ->
   frame (get_display_timecode localtime (fps r) (drop_frame r) ts1 ntp_offset)
   <= frame (get_display_timecode localtime (fps r) (drop_frame r) ts2 ntp_offset)).
Proof.
  intros Hin a1 a2 d1 d2. pose proof (supported_fps r Hin) as Hf.
  unfold get_timecode_with_alsa_latency, get_display_timecode. cbn [fst].
  split; intros Hle Hsame; apply timecode_at_monotone; assumption.
Qed.

Lemma frame_monotone_within_second_witness :
  frame (get_display_timecode (fun _ => mkTm 126 10 1 12 7 0) Double.d29_97 true
           (mkTimespec 1793491260 10000000) 0)
  <= frame (get_display_timecode (fun _ => mkTm 126 10 1 12 7 0) Double.d29_97 true
              (mkTimespec 1793491260 990000000) 0).
Proof.
  refine (proj2 (frame_monotone_within_second (fun _ => mkTm 126 10 1 12 7 0)
            (mkRate Double.d29_97 LTC_TV_525_60 true "29.97df")
            (mkTimespec 1793491260 10000000) (mkTimespec 1793491260 990000000)
            false ntp_init (mkPcm true 0 true 0) (mkPcm true 0 true 0) 0 0 0 _) _ _).
  - simpl. tauto.
  - vm_compute. split; congruence.
  - vm_compute. reflexivity.
Defined.

(** ** Buffer delay and the two timecodes *)

Lemma query_delay_frames_nonneg (pcm : pcm_answer) : 0 <= query_delay_frames pcm.
Proof.
  unfold query_delay_frames.
  destruct (status_ok pcm).
  - destruct (Z.ltb_spec (status_delay pcm) 0); lia.
  - destruct (delay_ok pcm).
    + destruct (Z.ltb_spec (delay_value pcm) 0); lia.
    + simpl. lia.
Qed.

(** X14.  The queued delay in frames is never negative, whatever ALSA
    answers (a negative or failed answer counts as 0); and for a delay of
    at most 2^40 frames the buffer delay is not negative and is the queued
    delay in microseconds at 48 kHz rounded to the nearest microsecond: it
    differs from [delay * 10^6 / 48000] by half a microsecond at most. *)
Theorem buffer_delay_rounds (pcm : pcm_answer) :
  0 <= query_delay_frames pcm /\
  (status_ok pcm = true -> status_delay pcm < 0 -> query_delay_frames pcm = 0) /\
  (status_ok pcm = false -> delay_ok pcm = false -> query_delay_frames pcm = 0) /\
  (status_ok pcm = false -> delay_value pcm < 0 -> query_delay_frames pcm = 0) /\
  (query_delay_frames pcm <= 1099511627776 ->
   0 <= buffer_delay_us pcm /\
   - 24000 <= 1000000 * query_delay_frames pcm - SAMPLE_RATE * buffer_delay_us pcm
     < 24000).
Proof.
  pose proof (query_delay_frames_nonneg pcm) as H0.
  split; [exact H0|].
  split; [|split; [|split]].
  { intros Hs Hd. unfold query_delay_frames. rewrite Hs.
    destruct (Z.ltb_spec (status_delay pcm) 0); [reflexivity | lia]. }
  { intros Hs Hd. unfold query_delay_frames. now rewrite Hs, Hd. }
  { intros Hs Hd. unfold query_delay_frames. rewrite Hs.
    destruct (delay_ok pcm); [|reflexivity].
    destruct (Z.ltb_spec (delay_value pcm) 0); [reflexivity | lia]. }
  intros Hmax.
  unfold buffer_delay_us, SAMPLE_RATE, MICROSECONDS_PER_SECOND.
  set (d := query_delay_frames pcm) in *.
  rewrite (wrap64_small (d * 1000000)) by (unfold INT64_MIN, INT64_MAX; lia).
  change (Z.quot 48000 2) with 24000.
  rewrite wrap64_small by (unfold INT64_MIN, INT64_MAX; lia).
  rewrite Z.quot_div_nonneg by lia.
  pose proof (Z.mul_div_le (d * 1000000 + 24000) 48000 ltac:(lia)).
  pose proof (Z.mul_succ_div_gt (d * 1000000 + 24000) 48000 ltac:(lia)).
  assert (0 <= (d * 1000000 + 24000) / 48000) by (apply Z.div_pos; lia).
  lia.
Qed.

Lemma buffer_delay_rounds_witness :
  0 <= buffer_delay_us (mkPcm false 0 true 1920).
Proof.
  refine (proj1 (proj2 (proj2 (proj2 (proj2
            (buffer_delay_rounds (mkPcm false 0 true 1920))))) _)).
  vm_compute. congruence.
Defined.

(** 1920 queued frames are 40000 us; a negative or failed answer is 0. *)
Example buffer_delay_values :
  buffer_delay_us (mkPcm true 1920 true 0) = 40000 /\
  buffer_delay_us (mkPcm true (-7) true 0) = 0 /\
  buffer_delay_us (mkPcm false 0 false 1920) = 0.
Proof. vm_compute. repeat split; reflexivity. Qed.

Lemma wrap64_add_l (x y : Z) : wrap64 (wrap64 x + y) = wrap64 (x + y).
Proof.
  unfold wrap64, wrap. change (2 ^ (64 - 1)) with 9223372036854775808.
  change (2 ^ 64) with 18446744073709551616. f_equal.
  replace ((x + 9223372036854775808) mod 18446744073709551616
           - 9223372036854775808 + y + 9223372036854775808)
    with ((x + 9223372036854775808) mod 18446744073709551616 + y) by lia.
  rewrite Z.add_mod_idemp_l by lia. f_equal. lia.
Qed.

Lemma wrap64_add_r (x y : Z) : wrap64 (x + wrap64 y) = wrap64 (x + y).
Proof. rewrite Z.add_comm, wrap64_add_l. f_equal. lia. Qed.

(** X15.  The compensation is a shift of the clock and nothing else: for
    every clock reading, NTP state, ALSA answer and adaptive correction,
    the output timecode is the display timecode of the same reading with
    the offset in use (0 without NTP) increased by the buffer delay and
    the correction, the sum taken as a 64-bit value. *)
Theorem output_is_shifted_display (localtime : Z -> tm) (f : Double.double) (df : bool)
    (ts : timespec) (use_ntp : bool) (s : ntp_state) (pcm : pcm_answer)
    (processing_offset_us : Z) :
  fst (get_timecode_with_alsa_latency localtime f df ts use_ntp s pcm
         processing_offset_us)
  = get_display_timecode localtime f df ts
      (wrap64 ((if use_ntp then ntp_offset_us s else 0)
               + buffer_delay_us pcm + processing_offset_us)).
Proof.
  unfold get_timecode_with_alsa_latency, get_display_timecode, adjusted_time_us.
  cbn [fst]. f_equal.
  generalize (clock_us ts) (buffer_delay_us pcm) (ntp_offset_us s).
  intros c b o. rewrite wrap64_add_r.
  destruct use_ntp.
  - rewrite (wrap64_add_l (c + o) b), (wrap64_add_l (c + o + b)). f_equal. lia.
  - rewrite (wrap64_add_l (c + b)). f_equal. lia.
Qed.

(** At 30 fps drop-frame, 10 ms into a second, with nothing queued: the
    display shows frame 2 (frame 0 raised by the drop-frame block), and a
    correction of 108446 us moves the output to frame 3. *)
Example output_is_shifted_display_values :
  frame (get_display_timecode (fun _ => mkTm 126 10 1 12 7 0) Double.d30 true
           (mkTimespec 1793491260 10000000) 0) = 2 /\
  frame (fst (get_timecode_with_alsa_latency (fun _ => mkTm 126 10 1 12 7 0)
                Double.d30 true (mkTimespec 1793491260 10000000) false ntp_init
                (mkPcm true 0 true 0) 108446)) = 3.
Proof. vm_compute. split; reflexivity. Qed.

(** X16.  With offset 0 and a clock between 1970 and 2^40 seconds later,
    the display timecode carries the calendar fields [localtime] gives
    for the clock's own second, and the frame that the clock's
    microseconds fall into. *)
Theorem display_of_clock (localtime : Z -> tm) (f : Double.double) (df : bool)
    (ts : timespec) :
  0 <= tv_sec ts <= 1099511627776 -> 0 <= tv_nsec ts < 1000000000 ->
  let tc := get_display_timecode localtime f df ts 0 in
  let t := localtime (tv_sec ts) in
  hours tc = to_uchar (tm_hour t) /\ mins tc = to_uchar (tm_min t) /\
  secs tc = to_uchar (tm_sec t) /\
  years tc = to_uchar (tm_year t + 1900) /\ months tc = to_uchar (tm_mon t + 1) /\
  days tc = to_uchar (tm_mday t) /\
  frame tc
  = to_uchar (drop_frame_rule df (to_uchar (tm_min t))
                (clamp_frame f (derived_frame f (tv_nsec ts / 1000)))).
Proof.
  intros Hs Hn. destruct (clock_us_eq ts ltac:(lia) Hn) as [Hc Hus].
  assert (Ht : wrap64 (clock_us ts + 0) = tv_sec ts * 1000000 + tv_nsec ts / 1000).
  { rewrite Z.add_0_r, Hc. apply wrap64_small. unfold INT64_MIN, INT64_MAX. lia. }
  assert (Hq : Z.quot (tv_sec ts * 1000000 + tv_nsec ts / 1000) MICROSECONDS_PER_SECOND
               = tv_sec ts).
  { unfold MICROSECONDS_PER_SECOND. rewrite Z.quot_div_nonneg by lia.
    symmetry. apply (Z.div_unique _ _ _ (tv_nsec ts / 1000)); lia. }
  assert (Hr : Z.rem (tv_sec ts * 1000000 + tv_nsec ts / 1000) MICROSECONDS_PER_SECOND
               = tv_nsec ts / 1000).
  { unfold MICROSECONDS_PER_SECOND. rewrite Z.rem_mod_nonneg by lia.
    symmetry. apply (Z.mod_unique _ _ (tv_sec ts)); lia. }
  cbv zeta. unfold get_display_timecode, timecode_at. rewrite Ht, Hq, Hr.
  cbn [hours mins secs years months days frame]. repeat split; reflexivity.
Qed.

Lemma display_of_clock_witness :
  secs (get_display_timecode
          (fun t => mkTm 126 10 1 (Z.rem (Z.quot t 3600) 24) (Z.rem (Z.quot t 60) 60)
                         (Z.rem t 60))
          Double.d25 false (mkTimespec 1793491275 480000000) 0)
  = 15.
Proof.
  etransitivity.
  - refine (proj1 (proj2 (proj2 (display_of_clock
              (fun t => mkTm 126 10 1 (Z.rem (Z.quot t 3600) 24) (Z.rem (Z.quot t 60) 60)
                             (Z.rem t 60))
              Double.d25 false (mkTimespec 1793491275 480000000) _ _))));
      vm_compute; split; congruence.
  - vm_compute. reflexivity.
Defined.

(** ** The choice of the rate *)

(** X17.  [parse_rate] finds a rate exactly by its name: it returns [r]
    for [arg] if and only if [r] is one of the six supported rates and
    [arg] is its name; so every supported name parses to its own rate,
    and any other string gives [NULL]. *)
Theorem parse_rate_by_name (arg : string) (r : framerate_spec_t) :
  (parse_rate arg = Some r <-> In r supported_rates /\ name r = arg) /\
  (parse_rate arg = None <-> forall r', In r' supported_rates -> name r' <> arg).
Proof.
  split; [split|split].
  - intros H. unfold parse_rate in H. apply find_some in H. destruct H as [Hin He].
    apply String.eqb_eq in He. auto.
  - intros [Hin <-]. simpl in Hin.
    destruct Hin as [<- | [<- | [<- | [<- | [<- | [<- | []]]]]]]; reflexivity.
  - intros H r' Hin He. unfold parse_rate in H.
    pose proof (find_none _ _ H r' Hin) as Hn. cbv beta in Hn.
    rewrite <- He, String.eqb_refl in Hn. discriminate.
  - intros H. unfold parse_rate.
    destruct (find (fun r0 => String.eqb arg (name r0)) supported_rates) as [r0|] eqn:Hf;
      [|reflexivity].
    apply find_some in Hf. destruct Hf as [Hin He]. apply String.eqb_eq in He.
    exfalso. apply (H r0 Hin). auto.
Qed.

(** X18.  The rate main runs with is always one of the six supported
    rates.  A rate on the command line that is not supported ends the
    program with the usage message; a rate in the config file that is not
    supported, like none at all, silently leaves the default of 25 fps. *)
Theorem select_rate_supported (positional : option string) (config_framerate : string) :
  (forall r, select_rate positional config_framerate = Some r ->
             In r supported_rates /\ In (fps r) (map fps supported_rates)) /\
  (forall arg, positional = Some arg -> parse_rate arg = None ->
               select_rate positional config_framerate = None) /\
  (positional = None -> parse_rate config_framerate = None ->
   select_rate positional config_framerate = Some default_rate) /\
  (positional = None -> select_rate positional config_framerate <> None) /\
  name default_rate = "25"%string.
Proof.
  assert (Hdef : In default_rate supported_rates) by (simpl; tauto).
  split; [|split; [|split; [|split]]].
  - intros r Hr.
    assert (Hin : In r supported_rates).
    { unfold select_rate in Hr. destruct positional as [arg|].
      - apply (proj1 (parse_rate_by_name arg r)) in Hr. tauto.
      - destruct (0 <? String.length config_framerate)%nat.
        + destruct (parse_rate config_framerate) as [c|] eqn:Hc.
          * injection Hr as <-.
            apply (proj1 (parse_rate_by_name config_framerate c)) in Hc. tauto.
          * injection Hr as <-. exact Hdef.
        + injection Hr as <-. exact Hdef. }
    split; [exact Hin | now apply in_map].
  - intros arg -> Hn. exact Hn.
  - intros -> Hn. unfold select_rate. rewrite Hn.
    now destruct (0 <? String.length config_framerate)%nat.
  - intros ->. unfold select_rate.
    destruct (0 <? String.length config_framerate)%nat; [|discriminate].
    destruct (parse_rate config_framerate); discriminate.
  - reflexivity.
Qed.

(** ** A cycle of the sync thread *)





(** ** The frame count of a slew, exactly *)

Lemma pow_log2_scaled (N : Z) :
  0 < N ->
  0 <= 2 ^ (Z.log2 N - 52) /\
  2 ^ (Z.log2 N - 52) * 4503599627370496 <= N /\
  (52 <= Z.log2 N -> N < 2 * 2 ^ (Z.log2 N - 52) * 4503599627370496).
Proof.
  intros HN. destruct (Z.log2_spec N HN) as [Hlo Hhi].
  change 4503599627370496 with (2 ^ 52).
  destruct (Z.lt_ge_cases (Z.log2 N) 52) as [Hs | Hs].
  - rewrite (Z.pow_neg_r 2 (Z.log2 N - 52)) by lia. lia.
  - assert (He : 2 ^ Z.log2 N = 2 ^ (Z.log2 N - 52) * 2 ^ 52).
    { rewrite <- Z.pow_add_r by lia. f_equal. lia. }
    assert (He' : 2 ^ Z.succ (Z.log2 N) = 2 * 2 ^ Z.log2 N)
      by (apply Z.pow_succ_r; apply Z.log2_nonneg).
    assert (0 < 2 ^ (Z.log2 N - 52)) by (apply Z.pow_pos_nonneg; lia).
    lia.
Qed.

(** Rounding to the nearest double and truncating gives the integer [F]
    when the exact value is at least [F], or below it by less than half a
    unit of the last place, and stays clear of [F + 1] by more than that. *)
Lemma round_b64_trunc (N sh F : Z) :
  0 < N -> 0 <= sh -> Z.log2 N - 52 <= sh -> N < 2 ^ (sh + 62) -> 0 <= F ->
  (F * 2 ^ sh <= N \/
   (52 < Z.log2 N /\ 2 * (F * 2 ^ sh - N) < 2 ^ (Z.log2 N - 52))) ->
  2 * N + 2 ^ (Z.log2 N - 52) < 2 * ((F + 1) * 2 ^ sh) ->
  Double.to_int64 (Double.round_b64 N sh) = F.
Proof.
  intros HN Hsh Hlog Hbig HF Hlow Hup.
  assert (Hp : 0 < 2 ^ sh) by (apply Z.pow_pos_nonneg; lia).
  assert (Hsplit : 2 ^ (sh + 62) = 2 ^ sh * 2 ^ 62) by (apply Z.pow_add_r; lia).
  assert (H62 : 2 ^ 62 = 4611686018427387904) by reflexivity.
  unfold Double.round_b64. rewrite (Z.abs_eq N) by lia.
  destruct (Z.leb_spec (Z.log2 N) 52) as [Hsmall | Hlarge].
  - unfold Double.to_int64. cbn [Double.dnum Double.dexp].
    rewrite Z.quot_div_nonneg by lia.
    assert (Hpw : 0 <= 2 ^ (Z.log2 N - 52)) by (apply Z.pow_nonneg; lia).
    destruct Hlow as [Hlow | [Hl _]]; [|lia].
    assert (Hv : N / 2 ^ sh = F).
    { symmetry. apply (Z.div_unique _ _ _ (N - F * 2 ^ sh)); lia. }
    rewrite Hv. apply wrap64_small.
    assert (F < 2 ^ 62) by (rewrite <- Hv; apply Z.div_lt_upper_bound; lia).
    unfold INT64_MIN, INT64_MAX. lia.
  - cbv zeta. set (s := Z.log2 N - 52) in *.
    assert (Hs : 0 < s) by lia.
    assert (Hps : 0 < 2 ^ s) by (apply Z.pow_pos_nonneg; lia).
    assert (Hhalf : 2 ^ s = 2 * 2 ^ (s - 1)).
    { replace s with (Z.succ (s - 1)) at 1 by lia. apply Z.pow_succ_r. lia. }
    assert (Hd : 2 ^ sh = 2 ^ (sh - s) * 2 ^ s).
    { rewrite <- Z.pow_add_r by lia. f_equal. lia. }
    assert (Hpd : 0 < 2 ^ (sh - s)) by (apply Z.pow_pos_nonneg; lia).
    rewrite (Z.shiftr_div_pow2 N s) by lia.
    pose proof (Z.div_mod N (2 ^ s) ltac:(lia)) as Hdm.
    pose proof (Z.mod_pos_bound N (2 ^ s) Hps) as Hmb.
    set (q := N / 2 ^ s) in *. set (r := N mod 2 ^ s) in *.
    set (half := 2 ^ (s - 1)) in *.
    assert (Hq0 : 0 <= q) by (subst q; apply Z.div_pos; lia).
    assert (HsN : 2 ^ s <= N).
    { transitivity (2 ^ Z.log2 N).
      - apply Z.pow_le_mono_r; lia.
      - apply Z.log2_spec. lia. }
    set (m := F * 2 ^ (sh - s)).
    assert (Hm : F * 2 ^ sh = m * 2 ^ s) by (subst m; rewrite Hd; ring).
    match goal with
    | |- context [if ?c then q + 1 else q] => set (q' := if c then q + 1 else q)
    end.
    assert (Hq' : q' * 2 ^ s <= N + half /\ m <= q').
    { subst q'. destruct (Z.ltb_spec half r) as [Hr | Hr]; cbn [orb].
      - split; [nia|]. destruct Hlow as [Hlow | [_ Hlow]]; nia.
      - destruct (Z.eqb_spec r half) as [He | He]; cbn [andb].
        + destruct (Z.odd q).
          * split; [nia|]. destruct Hlow as [Hlow | [_ Hlow]]; nia.
          * split; [nia|]. destruct Hlow as [Hlow | [_ Hlow]]; nia.
        + split; [nia|]. destruct Hlow as [Hlow | [_ Hlow]]; nia. }
    destruct Hq' as [Hqu Hql].
    rewrite (Z.sgn_pos N) by lia. rewrite Z.mul_1_l.
    unfold Double.to_int64. cbn [Double.dnum Double.dexp].
    assert (Hnn : 0 <= q' * 2 ^ s) by nia.
    rewrite Z.quot_div_nonneg by lia.
    assert (Hv : q' * 2 ^ s / 2 ^ sh = F).
    { symmetry. apply (Z.div_unique _ _ _ (q' * 2 ^ s - F * 2 ^ sh)); nia. }
    rewrite Hv. apply wrap64_small.
    assert (F < 2 ^ 63).
    { rewrite <- Hv. apply Z.div_lt_upper_bound; [lia|].
      change (2 ^ 63) with (2 * 2 ^ 62). nia. }
    unfold INT64_MIN, INT64_MAX. lia.
Qed.

Lemma adjust_frames_integer_rate (n k : Z) :
  1 <= n <= 2147483647 -> 1 <= k <= 30 ->
  adjust_frames (mkCfg n (Double.of_int k)) = n * k.
Proof.
  intros Hn Hk. unfold adjust_frames, Double.mul.
  cbn [ntp_slew_period selected_fps Double.of_int Double.dnum Double.dexp].
  assert (Hnk : 1 <= n * k <= 64424509410) by nia.
  assert (Hl : Z.log2 (n * k) < 36) by (apply log2_below; lia).
  apply round_b64_trunc; try lia.
  change (2 ^ (0 + 0)) with 1.
  rewrite (Z.pow_neg_r 2 (Z.log2 (n * k) - 52)) by lia. lia.
Qed.

Lemma adjust_frames_29_97 (n : Z) :
  1 <= n <= 2147483647 ->
  adjust_frames (mkCfg n Double.d29_97) = n * 2997 / 100.
Proof.
  intros Hn. unfold adjust_frames, Double.mul.
  cbn [ntp_slew_period selected_fps Double.of_int Double.d29_97 Double.dnum Double.dexp].
  set (N := n * 1054475631502295).
  set (F := n * 2997 / 100).
  assert (HF : 100 * F <= n * 2997 < 100 * F + 100).
  { subst F.
    pose proof (Z.mul_div_le (n * 2997) 100 ltac:(lia)).
    pose proof (Z.mul_succ_div_gt (n * 2997) 100 ltac:(lia)). lia. }
  assert (HN : 0 < N) by (subst N; lia).
  destruct (pow_log2_scaled N HN) as (Hp0 & Hp1 & Hp2).
  assert (H45 : 2 ^ (0 + 45) = 35184372088832) by reflexivity.
  apply round_b64_trunc; try lia.
  - enough (Z.log2 N < 98) by lia. apply log2_below; subst N; lia.
  - rewrite H45.
    destruct (Z.eq_dec (n * 2997) (100 * F)) as [He | He].
    + right.
      assert (Hn100 : 100 <= n).
      { destruct (Z.lt_ge_cases n 100) as [Hlt | Hge]; [exfalso | exact Hge].
        assert (Hdiv : (100 | 2997 * n)) by (exists F; lia).
        apply Z.gauss in Hdiv; [|reflexivity].
        destruct Hdiv as [c Hc]. lia. }
      assert (Hl : 52 < Z.log2 N).
      { enough (53 <= Z.log2 N) by lia.
        apply Z.log2_le_pow2; [exact HN|].
        change (2 ^ 53) with 9007199254740992. subst N. lia. }
      split; [exact Hl|]. specialize (Hp2 ltac:(lia)). subst N. lia.
    + left. subst N. lia.
Qed.

(** X20.  The frame count of a slew is the slew period times the rate,
    rounded down: for every period from 1 to [INT_MAX] seconds the double
    product, truncated, is [24 * n], [25 * n] and [30 * n] at the integer
    rates and the integer part of [n * 29.97] at 29.97 fps; rounding of
    the double never moves it off. *)
Theorem adjust_frames_exact (n : Z) :
  1 <= n <= 2147483647 ->
  adjust_frames (mkCfg n Double.d24) = 24 * n /\
  adjust_frames (mkCfg n Double.d25) = 25 * n /\
  adjust_frames (mkCfg n Double.d30) = 30 * n /\
  adjust_frames (mkCfg n Double.d29_97) = n * 2997 / 100.
Proof.
  intros Hn.
  pose proof (adjust_frames_integer_rate n 24 Hn ltac:(lia)) as H24.
  pose proof (adjust_frames_integer_rate n 25 Hn ltac:(lia)) as H25.
  pose proof (adjust_frames_integer_rate n 30 Hn ltac:(lia)) as H30.
  pose proof (adjust_frames_29_97 n Hn) as H2997.
  change (Double.of_int 24) with Double.d24 in H24.
  change (Double.of_int 25) with Double.d25 in H25.
  change (Double.of_int 30) with Double.d30 in H30.
  repeat split; lia.
Qed.

Lemma adjust_frames_exact_witness :
  adjust_frames (mkCfg 300 Double.d29_97) = 300 * 2997 / 100.
Proof.
  refine (proj2 (proj2 (proj2 (adjust_frames_exact 300 _)))). lia.
Defined.

(** ** The config file *)

Module ConfigFacts.
Import Config.

Lemma strncpy_length (n : nat) (src : string) : (String.length (strncpy n src) <= n)%nat.
Proof.
  revert src. induction n as [|n IH]; intros src; [simpl; lia|].
  destruct src as [|c rest]; simpl; [lia|]. specialize (IH rest). lia.
Qed.

Lemma to_int_range (x : Z) : - 2147483648 <= to_int x <= 2147483647.
Proof.
  unfold to_int, wrap.
  change (2 ^ (32 - 1)) with 2147483648. change (2 ^ 32) with 4294967296.
  pose proof (Z.mod_pos_bound (x + 2147483648) 4294967296). lia.
Qed.

Lemma parse_config_line_well_formed (c : settings) (line : string) :
  well_formed c -> well_formed (parse_config_line c line).
Proof.
  intros (Hd & Hf & Hs & Hi & Hp). unfold parse_config_line.
  destruct (split_eq line) as [[key val]|]; [|repeat split; assumption || lia].
  pose proof (to_int_range (strtol (cut_line_end val))) as Hr. fold (atoi (cut_line_end val)) in Hr.
  repeat match goal with
         | |- context [String.eqb key ?k] => destruct (String.eqb key k)
         end;
    unfold well_formed;
    cbn [config_device config_framerate ntp_server use_ntp ntp_sync_interval
         ntp_slew_period];
    repeat split; try assumption; try lia; try apply strncpy_length;
    destruct (Z.ltb_spec (atoi (cut_line_end val)) 1); lia.
Qed.

(** X21.  Whatever the config file holds, [parse_config] leaves the
    settings well formed: the device, frame rate and server strings fit
    their buffers of 128, 32 and 256 bytes, and the sync interval and the
    slew period are at least 1 (and at most [INT_MAX]); a value that is
    not a positive number gives the default back. *)
Theorem parse_config_well_formed (file : option (list string)) (c : settings) :
  well_formed c -> well_formed (parse_config file c).
Proof.
  intros Hc. destruct file as [pieces|]; [|exact Hc]. cbn [parse_config].
  revert c Hc. induction pieces as [|line pieces IH]; intros c Hc; [exact Hc|].
  cbn [fold_left]. apply IH. now apply parse_config_line_well_formed.
Qed.

Lemma parse_config_well_formed_witness :
  well_formed
    (parse_config
       (Some ["# settings"; "device=hw:1,0"; "ntp-slew-period=-5"; "ntp-sync-interval=abc";
              "framerate=29.97df"]%string)
       defaults).
Proof.
  apply parse_config_well_formed.
  unfold well_formed, defaults. simpl. repeat split; lia.
Defined.

(** X22.  A piece without ['='], and a piece whose text before the first
    ['='] is not exactly one of the five keys (a key with a space before
    it, a comment, an unknown key), changes no setting. *)
Theorem parse_config_line_ignores (c : settings) (line : string) :
  (forall key val, split_eq line = Some (key, val) -> ~ In key known_keys) ->
  parse_config_line c line = c.
Proof.
  intros H. unfold parse_config_line.
  destruct (split_eq line) as [[key val]|]; [|reflexivity].
  specialize (H key val eq_refl). unfold known_keys in H. cbn [In] in H.
  repeat match goal with
         | |- context [String.eqb key ?k] =>
             destruct (String.eqb_spec key k) as [He | _];
             [exfalso; apply H; rewrite He; tauto|]
         end.
  reflexivity.
Qed.

Lemma parse_config_line_ignores_witness :
  parse_config_line defaults " device=hw:1,0" = defaults.
Proof.
  apply parse_config_line_ignores.
  intros key val H. vm_compute in H. injection H as <- _.
  cbn [In known_keys]. intros [H | [H | [H | [H | [H | []]]]]]; discriminate H.
Defined.
End ConfigFacts.

Module ConfigNumbers.
Import Config.

Lemma digit_char (m : nat) :
  (m < 10)%nat ->
  isdigit (ascii_of_nat (48 + m)) = true /\
  Z.of_nat (nat_of_ascii (ascii_of_nat (48 + m))) - 48 = Z.of_nat m /\
  Ascii.eqb (ascii_of_nat (48 + m)) "013"%char
  || Ascii.eqb (ascii_of_nat (48 + m)) "010"%char = false.
Proof.
  intros Hm.
  do 10 (destruct m as [|m]; [vm_compute; auto|]). lia.
Qed.

Lemma mod10_digit (n : Z) : 0 <= n -> (Z.to_nat (n mod 10) < 10)%nat.
Proof. intros Hn. pose proof (Z.mod_pos_bound n 10 ltac:(lia)). lia. Qed.

Lemma to_digits_value (fuel : nat) (n : Z) (acc : string) (a : Z) :
  0 <= n < 10 ^ Z.of_nat fuel ->
  exists k, 0 <= k /\
    digits_value a (to_digits fuel n acc) = digits_value (a * 10 ^ k + n) acc.
Proof.
  revert n acc. induction fuel as [|fuel IH]; intros n acc Hn.
  - exists 0. split; [lia|]. cbn [to_digits]. f_equal.
    change (10 ^ Z.of_nat 0) with 1 in Hn. lia.
  - cbn [to_digits].
    destruct (digit_char (Z.to_nat (n mod 10)) (mod10_digit n ltac:(lia)))
      as (Hd & Hv & _).
    pose proof (Z.div_mod n 10 ltac:(lia)) as Hdm.
    pose proof (Z.mod_pos_bound n 10 ltac:(lia)) as Hmb.
    rewrite Z2Nat.id in Hv by lia.
    destruct (Z.eqb_spec (n / 10) 0) as [Hz | Hz].
    + exists 1. split; [lia|]. cbn [digits_value]. rewrite Hd, Hv. f_equal.
      change (10 ^ 1) with 10. lia.
    + assert (Hn10 : 0 <= n / 10 < 10 ^ Z.of_nat fuel).
      { split; [apply Z.div_pos; lia|].
        apply Z.div_lt_upper_bound; [lia|].
        rewrite Nat2Z.inj_succ, Z.pow_succ_r in Hn by lia. lia. }
      destruct (IH (n / 10)
                  (String (ascii_of_nat (48 + Z.to_nat (n mod 10))) acc) Hn10)
        as (k & Hk & He).
      exists (k + 1). split; [lia|]. rewrite He. cbn [digits_value].
      rewrite Hd, Hv. f_equal.
      rewrite Z.pow_add_r by lia. change (10 ^ 1) with 10. lia.
Qed.

Lemma to_digits_head (fuel : nat) (n : Z) (acc : string) :
  0 <= n ->
  exists d rest, to_digits (S fuel) n acc = String d rest /\ isdigit d = true.
Proof.
  revert n acc. induction fuel as [|fuel IH]; intros n acc Hn.
  - destruct (digit_char (Z.to_nat (n mod 10)) (mod10_digit n Hn)) as (Hd & _).
    cbn [to_digits]. destruct (n / 10 =? 0); eauto.
  - destruct (digit_char (Z.to_nat (n mod 10)) (mod10_digit n Hn)) as (Hd & _).
    change (to_digits (S (S fuel)) n acc)
      with (let acc' := String (ascii_of_nat (48 + Z.to_nat (n mod 10))) acc in
            if n / 10 =? 0 then acc' else to_digits (S fuel) (n / 10) acc').
    cbv zeta. destruct (n / 10 =? 0); [eauto|].
    apply IH. apply Z.div_pos; lia.
Qed.

Lemma append_assoc (a b c : string) : ((a ++ b) ++ c = a ++ (b ++ c))%string.
Proof. induction a as [|x a IH]; [reflexivity|]. simpl. now rewrite IH. Qed.

Lemma to_digits_append (fuel : nat) (n : Z) (acc : string) :
  to_digits fuel n acc = (to_digits fuel n "" ++ acc)%string.
Proof.
  revert n acc. induction fuel as [|fuel IH]; intros n acc; [reflexivity|].
  cbn [to_digits]. destruct (n / 10 =? 0); [reflexivity|].
  rewrite IH. rewrite (IH (n / 10) (String _ "")).
  rewrite append_assoc. reflexivity.
Qed.

Lemma cut_line_end_digits (fuel : nat) (n : Z) (acc : string) :
  0 <= n ->
  cut_line_end (to_digits fuel n acc) = to_digits fuel n (cut_line_end acc).
Proof.
  revert n acc. induction fuel as [|fuel IH]; intros n acc Hn; [reflexivity|].
  destruct (digit_char (Z.to_nat (n mod 10)) (mod10_digit n Hn)) as (_ & _ & Hc).
  cbn [to_digits]. destruct (n / 10 =? 0).
  - cbn [cut_line_end]. now rewrite Hc.
  - rewrite IH by (apply Z.div_pos; lia). cbn [cut_line_end]. now rewrite Hc.
Qed.

Lemma strtol_digit (c : ascii) (rest : string) :
  isdigit c = true ->
  strtol (String c rest) = Z.min INT64_MAX (digits_value 0 (String c rest)).
Proof.
  destruct c as [[] [] [] [] [] [] [] []]; intros H; try discriminate H; reflexivity.
Qed.

Lemma atoi_decimal (n : Z) : 0 <= n <= 2147483647 -> atoi (decimal n) = n.
Proof.
  intros Hn. unfold atoi, decimal.
  destruct (to_digits_head 18 n "" ltac:(lia)) as (d & rest & He & Hd).
  rewrite He, (strtol_digit d rest Hd), <- He.
  destruct (to_digits_value 19 n "" 0) as (k & Hk & Hv).
  { change (10 ^ Z.of_nat 19) with 10000000000000000000. lia. }
  rewrite Hv. cbn [digits_value]. rewrite Z.mul_0_l, Z.add_0_l.
  rewrite Z.min_r by (unfold INT64_MAX; lia).
  apply to_int_small. lia.
Qed.

Lemma cut_decimal (n : Z) (rest : string) :
  0 <= n -> cut_line_end rest = ""%string ->
  cut_line_end (decimal n ++ rest) = decimal n.
Proof.
  intros Hn Hr. unfold decimal.
  rewrite <- to_digits_append, cut_line_end_digits, Hr by exact Hn. reflexivity.
Qed.

(** X23.  A period written in the config file in decimal is the period
    the program gets: for [n] from 1 to [INT_MAX], a piece
    ["ntp-slew-period=<n>"], ended by a line end or by the end of the
    file, sets the slew period to [n] and nothing else, and
    ["ntp-sync-interval=<n>"] does the same for the sync interval. *)
Theorem parse_config_period_round_trip (c : settings) (n : Z) (rest : string) :
  1 <= n <= 2147483647 ->
  cut_line_end rest = ""%string ->
  parse_config_line c ("ntp-slew-period=" ++ decimal n ++ rest)
  = mkSettings (config_device c) (config_framerate c) (ntp_server c) (use_ntp c)
               (ntp_sync_interval c) n /\
  parse_config_line c ("ntp-sync-interval=" ++ decimal n ++ rest)
  = mkSettings (config_device c) (config_framerate c) (ntp_server c) (use_ntp c)
               n (ntp_slew_period c).
Proof.
  intros Hn Hr.
  assert (Hv : atoi (cut_line_end (decimal n ++ rest)) = n)
    by (rewrite cut_decimal by (lia || exact Hr); apply atoi_decimal; lia).
  assert (Hlt : (n <? 1) = false) by (apply Z.ltb_ge; lia).
  split.
  - change (parse_config_line c ("ntp-slew-period=" ++ decimal n ++ rest))
      with (let v := atoi (cut_line_end (decimal n ++ rest)) in
            mkSettings (config_device c) (config_framerate c) (ntp_server c) (use_ntp c)
                       (ntp_sync_interval c) (if v <? 1 then 30 else v)).
    cbv zeta. now rewrite Hv, Hlt.
  - change (parse_config_line c ("ntp-sync-interval=" ++ decimal n ++ rest))
      with (let v := atoi (cut_line_end (decimal n ++ rest)) in
            mkSettings (config_device c) (config_framerate c) (ntp_server c) (use_ntp c)
                       (if v <? 1 then 60 else v) (ntp_slew_period c)).
    cbv zeta. now rewrite Hv, Hlt.
Qed.

Lemma parse_config_period_round_trip_witness :
  parse_config_line defaults ("ntp-slew-period=45" ++ String "010"%char "")
  = mkSettings "" "" "" false 60 45.
Proof.
  refine (proj1 (parse_config_period_round_trip defaults 45 (String "010"%char "") _ _)).
  - lia.
  - reflexivity.
Defined.

End ConfigNumbers.
